(** * usd-jpy carry-trade monitor: indicator and alert engine

  A shallow embedding of the indicator modules of the repository
  ([indicators/spread.py], [indicators/volatility.py],
  [indicators/divergence.py], [components/alerts.py]) together with the
  properties stated for them.

  Numbers.  Python floats are embedded as exact numbers: rationals [Q] in
  the spread, divergence and alert modules (everything there is built from
  [+ - * /] and comparisons, so the definitions evaluate), and reals [R] in
  the volatility module (which needs [log] and [sqrt]).  A pandas [NaN] is
  [None] in an [option]; comparisons against [NaN] are false, as in
  Python.  A division by zero, which in pandas gives [NaN] or an infinity,
  is undefined ([None]) here.  Rounding is not modelled there.  Where it
  decides the outcome, in the guard of [calculate_beta] that compares a
  computed variance with 0, the function is embedded a second time over
  binary64 numbers (module [binary64]).

  Frames.  A pandas DataFrame enters the indicator functions only through
  its date index and one price column; it is a list of rows, oldest
  first. *)

From Stdlib Require Import List ZArith QArith Qabs Lqa Reals Lra Lia.
From Stdlib Require Import Permutation Sorted String.
From Stdlib Require PrimFloat.
From stdpp Require Import gmap strings.
Import ListNotations.

(** ** Python numbers and NaN *)

Module numeric.

Local Open Scope Q_scope.

(** [x <= y] and [x < y] on floats that are not NaN. *)
Definition Qleb (x y : Q) : bool := Qle_bool x y.
Definition Qltb (x y : Q) : bool := negb (Qle_bool y x).

(** A float that may be NaN. *)
Definition float : Type := option Q.

Definition fsub (a b : float) : float :=
  match a, b with
  | Some x, Some y => Some (x - y)
  | _, _ => None
  end.

Definition fmul (a b : float) : float :=
  match a, b with
  | Some x, Some y => Some (x * y)
  | _, _ => None
  end.

(** Division; a zero divisor leaves the quotient undefined. *)
Definition fdiv (a b : float) : float :=
  match a, b with
  | Some x, Some y => if Qeq_bool y 0 then None else Some (x / y)
  | _, _ => None
  end.

(** [a >= q], false on NaN. *)
Definition fgeb (a : float) (q : Q) : bool :=
  match a with
  | Some x => Qleb q x
  | None => false
  end.

(** [a > q] and [a < q], false on NaN. *)
Definition fgtb (a : float) (q : Q) : bool :=
  match a with
  | Some x => Qltb q x
  | None => false
  end.

Definition fltb (a : float) (q : Q) : bool :=
  match a with
  | Some x => Qltb x q
  | None => false
  end.

(** [a == 0], false on NaN. *)
Definition feq0 (a : float) : bool :=
  match a with
  | Some x => Qeq_bool x 0
  | None => false
  end.

Definition Qsum (l : list Q) : Q := fold_right Qplus 0 l.

(** [np.mean] of a non-empty Python list of floats. *)
Definition Qmean (l : list Q) : Q := Qsum l / inject_Z (Z.of_nat (length l)).

(** [Series.dropna()] on the values of a series. *)
Fixpoint dropna {A : Type} (s : list (option A)) : list A :=
  match s with
  | [] => []
  | Some x :: s' => x :: dropna s'
  | None :: s' => dropna s'
  end.

(** [Series.tail(n)]: the last [n] entries (all of them when shorter). *)
Definition tail {A : Type} (n : nat) (l : list A) : list A :=
  skipn (length l - n) l.

(** [Series.iloc[-1]]. *)
Definition iloc_last {A : Type} (l : list A) : option A :=
  nth_error l (length l - 1).

(** [Series.iloc[-k]]; as in Python, [-0] is [0], the first entry. *)
Definition iloc_neg {A : Type} (l : list A) (k : nat) : option A :=
  match k with
  | O => nth_error l 0
  | S _ => if (k <=? length l)%nat then nth_error l (length l - k) else None
  end.

(** [Series.shift(periods)]: every entry moves [periods] places towards
    the end; the places freed at the start are NaN. *)
Definition shift {A : Type} (periods : nat) (s : list A) : list (option A) :=
  firstn (length s) (repeat None periods ++ map Some s).

(** [sorted(l, key=key)] for integer keys.  Python's sort is stable: it is
    this insertion sort, in which an entry moves behind the later entries
    of strictly smaller key and entries of equal key keep their order. *)
Fixpoint insert_by {A : Type} (key : A -> nat) (x : A) (l : list A) : list A :=
  match l with
  | [] => [x]
  | y :: l' => if (key y <? key x)%nat then y :: insert_by key x l' else x :: y :: l'
  end.

Definition sorted_by {A : Type} (key : A -> nat) (l : list A) : list A :=
  fold_right (insert_by key) [] l.

End numeric.

(** ** Configuration *)

Module config.

(** Modelled from the spec: [config.py] is not among the sources.  The
    spec lists the configuration surface the indicators read: numeric
    thresholds for the spread (critical, danger, warning), a divergence
    threshold given as a negative fraction, and window lengths.  The
    values are left open; only the keys the embedded functions read are
    kept. *)
Record AlertThresholds : Type := {
  SPREAD_CRITICAL : Q;
  SPREAD_DANGER : Q;
  SPREAD_WARNING : Q;
  DIVERGENCE_THRESHOLD : Q
}.

Record CalcParams : Type := {
  VOL_WINDOW : nat;
  RELATIVE_STRENGTH_WINDOW : nat
}.

(** Modelled from the spec: further keys of the two dictionaries of the
    absent [config.py], read by the volatility functions: the daily and
    weekly move thresholds, the two percentile thresholds, the ATR window
    and the percentile lookback. *)
Record VolatilityThresholds : Type := {
  JPY_DAILY_MOVE : Q;
  JPY_WEEKLY_MOVE : Q;
  VOL_PERCENTILE_EXTREME : Q;
  VOL_PERCENTILE_HIGH : Q
}.

Record WindowParams : Type := {
  ATR_WINDOW : nat;
  VOL_LOOKBACK : nat
}.

End config.

(** ** components/alerts.py *)

Module alerts.
Import numeric.
Local Open Scope Q_scope.

(** [class AlertLevel(Enum)] *)
Inductive AlertLevel : Type := SAFE | INFO | WARNING | DANGER | CRITICAL.

(** [AlertLevel.value] *)
Definition value (l : AlertLevel) : string :=
  match l with
  | SAFE => "safe"
  | INFO => "info"
  | WARNING => "warning"
  | DANGER => "danger"
  | CRITICAL => "critical"
  end.

(** [LEVEL_PRIORITY]: 0 is the most severe level. *)
Definition LEVEL_PRIORITY (l : AlertLevel) : nat :=
  match l with
  | CRITICAL => 0
  | DANGER => 1
  | WARNING => 2
  | INFO => 3
  | SAFE => 4
  end.

(** The total order [SAFE < INFO < WARNING < DANGER < CRITICAL] as a rank;
    it is [LEVEL_PRIORITY] read backwards. *)
Definition severity (l : AlertLevel) : nat := (4 - LEVEL_PRIORITY l)%nat.

(** The conversion at the head of [create_alert]:
    [AlertLevel(level) if level in [e.value for e in AlertLevel] else AlertLevel.INFO]. *)
Definition alert_level (level : string) : AlertLevel :=
  if String.eqb level "safe" then SAFE
  else if String.eqb level "info" then INFO
  else if String.eqb level "warning" then WARNING
  else if String.eqb level "danger" then DANGER
  else if String.eqb level "critical" then CRITICAL
  else INFO.

(** The values [calculate_composite_risk_score] finds in the divergence
    dictionary: Python floats and booleans. *)
Inductive pyval : Type :=
| PFloat (q : Q)
| PBool (b : bool).

(** Truth value of a Python value in an [if]. *)
Definition truthy (v : pyval) : bool :=
  match v with
  | PFloat q => negb (Qeq_bool q 0)
  | PBool b => b
  end.

(** [abs(v)]; a Python boolean counts as the integer 0 or 1. *)
Definition py_abs (v : pyval) : Q :=
  match v with
  | PFloat q => Qabs q
  | PBool b => if b then 1 else 0
  end.

(** [d.get(key, dflt)] *)
Definition get {V : Type} (d : gmap string V) (key : string) (dflt : V) : V :=
  match d !! key with
  | Some v => v
  | None => dflt
  end.

(** [calculate_composite_risk_score]: the pair [(score, factors)] is
    threaded through the three blocks of the function. *)
Definition score_spread (spread : Q) (acc : Q * list string) : Q * list string :=
  let '(score, factors) := acc in
  if Qleb spread (3 # 2) then (score + 40, factors ++ ["利差极度收窄"%string])
  else if Qleb spread 2 then (score + 30, factors ++ ["利差危险收窄"%string])
  else if Qleb spread (5 # 2) then (score + 20, factors ++ ["利差收窄至警戒线"%string])
  else if Qleb spread 3 then (score + 10, factors ++ ["利差处于较低水平"%string])
  else (score, factors).

Definition score_volatility (hv_percentile : Q) (acc : Q * list string) : Q * list string :=
  let '(score, factors) := acc in
  if Qleb 95 hv_percentile then (score + 30, factors ++ ["波动率处于极端水平"%string])
  else if Qleb 80 hv_percentile then (score + 20, factors ++ ["波动率偏高"%string])
  else if Qleb 60 hv_percentile then (score + 10, factors ++ ["波动率有所上升"%string])
  else (score, factors).

Definition score_divergence (divergence_result : gmap string pyval)
    (acc : Q * list string) : Q * list string :=
  let '(score, factors) := acc in
  if truthy (get divergence_result "divergence_detected" (PBool false)) then
    let div_score := py_abs (get divergence_result "divergence_score" (PFloat 0)) in
    if Qltb 20 div_score then (score + 30, factors ++ ["严重资产背离"%string])
    else if Qltb 10 div_score then (score + 20, factors ++ ["明显资产背离"%string])
    else (score + 10, factors ++ ["轻微资产背离"%string])
  else (score, factors).

Definition calculate_composite_risk_score
    (spread_stats vol_stats : gmap string Q)
    (divergence_result : gmap string pyval) : Q * list string :=
  let acc := (0, []) in
  let acc := score_spread (get spread_stats "current" 5) acc in
  let acc := score_volatility (get vol_stats "hv_percentile" 50) acc in
  score_divergence divergence_result acc.

(** The banding in the words of the specification, one contribution per
    category, to be compared with the accumulation above. *)
Definition spread_band (spread : Q) : Q :=
  if Qleb spread (3 # 2) then 40
  else if Qleb spread 2 then 30
  else if Qleb spread (5 # 2) then 20
  else if Qleb spread 3 then 10
  else 0.

Definition volatility_band (hv_percentile : Q) : Q :=
  if Qleb 95 hv_percentile then 30
  else if Qleb 80 hv_percentile then 20
  else if Qleb 60 hv_percentile then 10
  else 0.

Definition divergence_band (detected : bool) (abs_score : Q) : Q :=
  if detected then
    if Qltb 20 abs_score then 30
    else if Qltb 10 abs_score then 20
    else 10
  else 0.

(** The number a Python float or boolean stands for in a comparison. *)
Definition py_num (v : pyval) : Q :=
  match v with
  | PFloat q => q
  | PBool b => if b then 1 else 0
  end.

(** [LEVEL_COLORS] *)
Definition LEVEL_COLORS (l : AlertLevel) : string :=
  match l with
  | SAFE => "#00C853"
  | INFO => "#2979FF"
  | WARNING => "#FFD600"
  | DANGER => "#FF5722"
  | CRITICAL => "#9C27B0"
  end.

(** [@dataclass class Alert] *)
Record Alert : Type := {
  a_level : AlertLevel;
  a_category : string;
  a_message : string;
  a_color : string;
  a_value : Q;
  a_threshold : Q
}.

(** [create_alert]; [color] is [None] when the caller leaves it out. *)
Definition create_alert (level category message : string) (color : option string)
    (current threshold : Q) : Alert :=
  let lv := alert_level level in
  let color :=
    match color with
    | None => LEVEL_COLORS lv
    | Some c => c
    end in
  {| a_level := lv; a_category := category; a_message := message;
     a_color := color; a_value := current; a_threshold := threshold |}.

(** [get_highest_priority_alert] *)
Definition get_highest_priority_alert (alerts : list Alert) : Alert :=
  match alerts with
  | [] => create_alert "safe" "系统" "一切正常" None 0 0
  | _ =>
      match sorted_by (fun x => LEVEL_PRIORITY (a_level x)) alerts with
      | first :: _ => first
      | [] => create_alert "safe" "系统" "一切正常" None 0 0
      end
  end.

End alerts.

(** ** indicators/spread.py *)

Module spread.
Import numeric config.
Local Open Scope Q_scope.

(** The frame handed to the spread functions, seen through its ['Spread']
    column: [None] when the frame has no such column, otherwise the
    column's values, oldest first, [None] marking a NaN.  A frame with the
    column is [.empty] exactly when the column has no rows. *)
Definition SpreadFrame : Type := option (list float).

(** [_to_scalar] is the identity on a Python float. *)
Definition _to_scalar (val : Q) : Q := val.

Definition Qminimum (x : Q) (l : list Q) : Q :=
  fold_left (fun m y => if Qleb y m then y else m) l x.

Definition Qmaximum (x : Q) (l : list Q) : Q :=
  fold_left (fun m y => if Qleb m y then y else m) l x.

(** [(spread < current_spread).sum()] *)
Definition count_less (spread : list Q) (current_spread : Q) : nat :=
  length (List.filter (fun x => Qltb x current_spread) spread).

(** [spread.iloc[-1] - spread.iloc[-k] if len(spread) > n else 0] *)
Definition change (spread : list Q) (current_spread : Q) (k n : nat) : Q :=
  if (n <? length spread)%nat then
    match iloc_neg spread k with
    | Some x => current_spread - x
    | None => 0
    end
  else 0.

(** [get_spread_statistics].  The ['std'] entry of the dictionary is a
    square root and has no rational value; it is left out, every other
    entry is computed as in the source. *)
Definition get_spread_statistics (spread_df : SpreadFrame) : gmap string Q :=
  match spread_df with
  | None => ∅
  | Some [] => ∅
  | Some column =>
      let spread := dropna column in
      match iloc_last spread with
      | None => ∅
      | Some last =>
          let current_spread := _to_scalar last in
          let n := inject_Z (Z.of_nat (length spread)) in
          <["current" := current_spread]>
          (<["mean" := _to_scalar (Qsum spread / n)]>
          (<["min" := _to_scalar (Qminimum last spread)]>
          (<["max" := _to_scalar (Qmaximum last spread)]>
          (<["percentile" :=
               _to_scalar (inject_Z (Z.of_nat (count_less spread current_spread)) / n * 100)]>
          (<["change_1d" := change spread last 2 1]>
          (<["change_5d" := change spread last 5 5]>
          (<["change_20d" := change spread last 20 20]> ∅)))))))
      end
  end.

(** [check_spread_alert] *)
Definition check_spread_alert (ALERT_THRESHOLDS : AlertThresholds)
    (current_spread : Q) : string * string :=
  let current_spread := _to_scalar current_spread in
  if Qleb current_spread (SPREAD_CRITICAL ALERT_THRESHOLDS) then
    ("critical"%string, "#9C27B0"%string)
  else if Qleb current_spread (SPREAD_DANGER ALERT_THRESHOLDS) then
    ("danger"%string, "#FF1744"%string)
  else if Qleb current_spread (SPREAD_WARNING ALERT_THRESHOLDS) then
    ("warning"%string, "#FFD600"%string)
  else
    ("safe"%string, "#00C853"%string).

(** [calculate_spread_velocity].  [None] stands for the [IndexError] that
    [recent.iloc[-1]] raises when [window] is 0 and the tail is empty. *)
Definition calculate_spread_velocity (spread_df : SpreadFrame) (window : nat) : option Q :=
  match spread_df with
  | None => Some 0
  | Some [] => Some 0
  | Some column =>
      let spread := dropna column in
      if (length spread <? window)%nat then Some 0
      else
        let recent := tail window spread in
        match iloc_last recent, nth_error recent 0 with
        | Some last, Some first => Some ((last - first) / inject_Z (Z.of_nat window))
        | _, _ => None
        end
  end.

(** [is_spread_accelerating] *)
Definition is_spread_accelerating (spread_df : SpreadFrame) : option bool :=
  match calculate_spread_velocity spread_df 5 with
  | None => None
  | Some velocity_5d =>
      match calculate_spread_velocity spread_df 20 with
      | None => None
      | Some velocity_20d =>
          Some (Qltb velocity_5d velocity_20d && Qltb velocity_5d 0)
      end
  end.

End spread.

(** ** indicators/divergence.py *)

Module divergence.
Import numeric config.
Local Open Scope Q_scope.

(** A price frame: the rows [(date, Close)], oldest first.  The data model
    has the dates strictly increasing; the closing prices are numbers (no
    NaN). *)
Definition Frame : Type := list (Z * Q).

(** [df.index] and [df['Close']] *)
Definition index (df : Frame) : list Z := map fst df.
Definition Close (df : Frame) : list Q := map snd df.

(** The frames of the data model: no date occurs twice and no closing
    price is zero. *)
Definition well_formed (df : Frame) : Prop :=
  List.NoDup (index df) /\ Forall (fun q => ~ q == 0) (Close df).

Definition isin (d : Z) (idx : list Z) : bool := existsb (Z.eqb d) idx.

(** [Index.unique()]: first occurrences, in order. *)
Fixpoint unique (idx : list Z) : list Z :=
  match idx with
  | [] => []
  | d :: idx' => d :: List.filter (fun e => negb (Z.eqb e d)) (unique idx')
  end.

(** [left.intersection(right)]: the labels of [left] found in [right], in
    the order of [left]. *)
Definition intersection (left right : list Z) : list Z :=
  unique (List.filter (fun d => isin d right) left).

(** [close.loc[labels]]: the rows carrying each label, label by label. *)
Definition loc (df : Frame) (labels : list Z) : list Q :=
  flat_map (fun d => Close (List.filter (fun row => Z.eqb (fst row) d) df)) labels.

(** [Series.pct_change(periods)] on a series without NaN:
    [s / s.shift(periods) - 1]. *)
Definition pct_change (periods : nat) (s : list Q) : list float :=
  map (fun '(x, prev) => fsub (fdiv (Some x) prev) (Some 1))
      (combine s (shift periods s)).

(** [calculate_relative_strength] *)
Definition calculate_relative_strength (CALC_PARAMS : CalcParams)
    (asset benchmark : Frame) (window : option nat) : list float :=
  let window :=
    match window with
    | None => RELATIVE_STRENGTH_WINDOW CALC_PARAMS
    | Some w => w
    end in
  match asset, benchmark with
  | [], _ => []
  | _, [] => []
  | _, _ =>
      let common_idx := intersection (index asset) (index benchmark) in
      let asset_close := loc asset common_idx in
      let bench_close := loc benchmark common_idx in
      let asset_returns := pct_change window asset_close in
      let bench_returns := pct_change window bench_close in
      map (fun '(a, b) => fmul (fsub a b) (Some 100))
          (combine asset_returns bench_returns)
  end.

(** [(close.iloc[-1] / close.iloc[-window] - 1) * 100 if len(close) > window else 0] *)
Definition window_return (close : list Q) (window : nat) : float :=
  if (window <? length close)%nat then
    match iloc_last close, iloc_neg close window with
    | Some last, Some base =>
        fmul (fsub (fdiv (Some last) (Some base)) (Some 1)) (Some 100)
    | _, _ => None
    end
  else Some 0.

(** [rs.iloc[-1] if not pd.isna(rs.iloc[-1]) else 0], for a non-empty [rs]. *)
Definition current_or_zero (last : float) : Q :=
  match last with
  | Some v => v
  | None => 0
  end.

(** One entry of [results['details']]; the ['message'] text, a formatted
    rendering of the ticker and of [abs(current_rs)], is not kept. *)
Record Detail : Type := {
  detail_ticker : string;
  detail_relative_strength : Q;
  detail_asset_return : float
}.

(** The [results] dictionary of [detect_divergence]. *)
Record DivergenceResult : Type := {
  divergence_detected : bool;
  divergence_score : Q;
  details : list Detail;
  benchmark_performance : float;
  high_beta_performance : gmap string float
}.

(** The state of the loop of [detect_divergence]: [divergence_scores],
    [results['details']] and [results['high_beta_performance']]. *)
Definition DetectState : Type := (list Q * list Detail * gmap string float)%type.

(** The body of [for ticker, asset_df in high_beta_assets.items()]. *)
Definition detect_step (ALERT_THRESHOLDS : AlertThresholds) (CALC_PARAMS : CalcParams)
    (benchmark : Frame) (window : nat) (bench_return : float)
    (st : DetectState) (item : string * Frame) : DetectState :=
  let '(divergence_scores, details, performance) := st in
  let '(ticker, asset_df) := item in
  match asset_df with
  | [] => st
  | _ =>
      let rs := calculate_relative_strength CALC_PARAMS asset_df benchmark (Some window) in
      match iloc_last rs with
      | None => st
      | Some last =>
          let current_rs := current_or_zero last in
          let asset_return := window_return (Close asset_df) window in
          let performance := <[ticker := asset_return]> performance in
          if fgeb bench_return (-2)
             && Qltb current_rs (DIVERGENCE_THRESHOLD ALERT_THRESHOLDS * 100)
          then (divergence_scores ++ [current_rs],
                details ++ [{| detail_ticker := ticker;
                               detail_relative_strength := current_rs;
                               detail_asset_return := asset_return |}],
                performance)
          else (divergence_scores, details, performance)
      end
  end.

(** [detect_divergence].  The asset dictionary is the list of its items in
    insertion order, the order in which Python iterates it. *)
Definition detect_divergence (ALERT_THRESHOLDS : AlertThresholds) (CALC_PARAMS : CalcParams)
    (high_beta_assets : list (string * Frame)) (benchmark : Frame)
    (window : option nat) : DivergenceResult :=
  let window :=
    match window with
    | None => RELATIVE_STRENGTH_WINDOW CALC_PARAMS
    | Some w => w
    end in
  match benchmark with
  | [] =>
      {| divergence_detected := false; divergence_score := 0; details := [];
         benchmark_performance := Some 0; high_beta_performance := ∅ |}
  | _ =>
      let bench_return := window_return (Close benchmark) window in
      let '(divergence_scores, details, performance) :=
        fold_left (detect_step ALERT_THRESHOLDS CALC_PARAMS benchmark window bench_return)
                  high_beta_assets ([], [], ∅) in
      match divergence_scores with
      | [] =>
          {| divergence_detected := false; divergence_score := 0; details := details;
             benchmark_performance := bench_return; high_beta_performance := performance |}
      | _ =>
          {| divergence_detected := true; divergence_score := Qmean divergence_scores;
             details := details;
             benchmark_performance := bench_return; high_beta_performance := performance |}
      end
  end.

(** Flagging in the words of the specification, to be compared with the
    loop above: an asset is flagged when the benchmark return over the
    window is at least -2 and its current relative strength is below the
    divergence threshold times 100; the value is that relative strength.
    An asset without data, or without a date in common with the benchmark,
    has no relative strength and is not flagged. *)
Definition flagged_strength (ALERT_THRESHOLDS : AlertThresholds) (CALC_PARAMS : CalcParams)
    (benchmark : Frame) (window : nat) (item : string * Frame) : option Q :=
  match snd item with
  | [] => None
  | _ =>
      match iloc_last (calculate_relative_strength CALC_PARAMS (snd item) benchmark
                         (Some window)) with
      | None => None
      | Some last =>
          if fgeb (window_return (Close benchmark) window) (-2)
             && Qltb (current_or_zero last) (DIVERGENCE_THRESHOLD ALERT_THRESHOLDS * 100)
          then Some (current_or_zero last)
          else None
      end
  end.

(** [Series.var()] and [Series.cov()] with pandas' default [ddof=1]: NaN
    on fewer than two observations. *)
Definition var (xs : list Q) : float :=
  if (length xs <? 2)%nat then None
  else
    let m := Qmean xs in
    Some (Qsum (map (fun x => (x - m) * (x - m)) xs)
          / inject_Z (Z.of_nat (length xs - 1))).

Definition cov (pairs : list (Q * Q)) : float :=
  if (length pairs <? 2)%nat then None
  else
    let mx := Qmean (map fst pairs) in
    let my := Qmean (map snd pairs) in
    Some (Qsum (map (fun '(x, y) => (x - mx) * (y - my)) pairs)
          / inject_Z (Z.of_nat (length pairs - 1))).

Definition both (p : float * float) : option (Q * Q) :=
  match p with
  | (Some x, Some y) => Some (x, y)
  | _ => None
  end.

(** [calculate_beta].  The two return series share the aligned index, so
    [asset_returns.cov(bench_returns)], which pairs the entries by date and
    keeps the dates where both are defined, pairs them by position.  This
    is the function in exact arithmetic, as [analyze_liquidity_retreat]
    uses it below; [binary64.calculate_beta] is the function in double
    precision. *)
Definition calculate_beta (asset benchmark : Frame) (window : nat) : float :=
  match asset, benchmark with
  | [], _ => Some 1
  | _, [] => Some 1
  | _, _ =>
      let common_idx := intersection (index asset) (index benchmark) in
      let asset_close := tail window (loc asset common_idx) in
      let bench_close := tail window (loc benchmark common_idx) in
      if (length asset_close <? 20)%nat then Some 1
      else
        let asset_returns := pct_change 1 asset_close in
        let bench_returns := pct_change 1 bench_close in
        let covariance := cov (dropna (map both (combine asset_returns bench_returns))) in
        let variance := var (dropna bench_returns) in
        if feq0 variance then Some 1
        else fdiv covariance variance
  end.

(** One entry of [asset_metrics]. *)
Record Metric : Type := {
  ticker : string;
  beta : float;
  relative_strength_5d : Q
}.

(** The body of the first loop of [analyze_liquidity_retreat]; it is only
    run on a non-empty frame. *)
Definition asset_metric (CALC_PARAMS : CalcParams) (benchmark : Frame)
    (item : string * Frame) : Metric :=
  let '(name, df) := item in
  let rs := calculate_relative_strength CALC_PARAMS df benchmark (Some 5%nat) in
  let current_rs :=
    match iloc_last rs with
    | Some (Some v) => v
    | _ => 0
    end in
  {| ticker := name; beta := calculate_beta df benchmark 60;
     relative_strength_5d := current_rs |}.

(** [x < y] on sort keys; false when either key is NaN. *)
Definition key_lt (x y : float) : bool :=
  match x, y with
  | Some a, Some b => Qltb a b
  | _, _ => false
  end.

(** [asset_metrics.sort(key=lambda x: x['beta'], reverse=True)]: Python's
    sort is stable, also under [reverse=True]; on keys that are not NaN it
    is this insertion sort: an entry moves behind the later entries of
    strictly larger key, and entries of equal key keep their order. *)
Fixpoint insert_desc (x : Metric) (l : list Metric) : list Metric :=
  match l with
  | [] => [x]
  | y :: l' =>
      if key_lt (beta x) (beta y) then y :: insert_desc x l' else x :: y :: l'
  end.

Definition sort_desc (l : list Metric) : list Metric :=
  fold_right insert_desc [] l.

(** The two tests of the second loop. *)
Definition high_beta_underperforming_test (asset : Metric) : bool :=
  fgtb (beta asset) (6 # 5) && Qltb (relative_strength_5d asset) (-5).

Definition low_beta_stable_test (asset : Metric) : bool :=
  fltb (beta asset) 1 && Qltb (-2) (relative_strength_5d asset).

(** The state of the second loop: [high_beta_underperforming],
    [low_beta_stable] and [results['retreat_order']]. *)
Definition retreat_step (st : nat * nat * list string) (asset : Metric)
    : nat * nat * list string :=
  let '(high_beta_underperforming, low_beta_stable, retreat_order) := st in
  if high_beta_underperforming_test asset then
    (S high_beta_underperforming, low_beta_stable, retreat_order ++ [ticker asset])
  else if low_beta_stable_test asset then
    (high_beta_underperforming, S low_beta_stable, retreat_order)
  else st.

Record RetreatResult : Type := {
  retreat_detected : bool;
  retreat_order : list string;
  severity : string
}.

Definition nonempty (item : string * Frame) : bool :=
  match snd item with
  | [] => false
  | _ => true
  end.

(** [analyze_liquidity_retreat] from the sort onwards, on the
    [asset_metrics] the first loop has collected. *)
Definition retreat_pattern (asset_metrics : list Metric) : RetreatResult :=
  let asset_metrics := sort_desc asset_metrics in
  let '(high_beta_underperforming, low_beta_stable, retreat_order) :=
    fold_left retreat_step asset_metrics (0%nat, 0%nat, []) in
  if (2 <=? high_beta_underperforming)%nat && (1 <=? low_beta_stable)%nat then
    {| retreat_detected := true; retreat_order := retreat_order;
       severity := if (3 <=? high_beta_underperforming)%nat then "high" else "medium" |}
  else
    {| retreat_detected := false; retreat_order := retreat_order;
       severity := "none" |}.

(** [analyze_liquidity_retreat] *)
Definition analyze_liquidity_retreat (CALC_PARAMS : CalcParams)
    (assets : list (string * Frame)) (benchmark : Frame) : RetreatResult :=
  retreat_pattern (map (asset_metric CALC_PARAMS benchmark) (List.filter nonempty assets)).

(** Descending beta order, on entries whose beta is a number. *)
Definition beta_ge (a b : Metric) : Prop :=
  exists x y, beta a = Some x /\ beta b = Some y /\ y <= x.

(** The scalar entries of the [results] dictionary, as the readers of the
    dictionary find them. *)
Definition as_dict (results : DivergenceResult) : gmap string alerts.pyval :=
  <["divergence_detected" := alerts.PBool (divergence_detected results)]>
  (<["divergence_score" := alerts.PFloat (divergence_score results)]> ∅).

(** [get_divergence_alert]: the level and the colour; the message, a
    formatted rendering of the score, is not kept. *)
Definition get_divergence_alert (divergence_result : gmap string alerts.pyval)
    : string * string :=
  if negb (alerts.truthy
             (alerts.get divergence_result "divergence_detected" (alerts.PBool false))) then
    ("safe"%string, "#00C853"%string)
  else
    let score :=
      alerts.py_num (alerts.get divergence_result "divergence_score" (alerts.PFloat 0)) in
    if Qltb score (-20) then ("critical"%string, "#9C27B0"%string)
    else if Qltb score (-10) then ("danger"%string, "#FF1744"%string)
    else ("warning"%string, "#2979FF"%string).

End divergence.

(** ** [calculate_beta] in double precision *)

(** [calculate_beta] compares a variance it has computed with [0] and
    divides by it, so the rounding of that variance decides which branch
    runs.  The function is embedded here a second time, over the binary64
    numbers Python computes with.  [Series.var] and [Series.cov] are
    written out as pandas computes them (the two passes of
    [nanops.nanvar], and [numpy.cov]).  The order in which the terms of
    a reduction are added is the library's: it enters as the parameters
    [sum] (the sums of the variance), [sum_cov] (the sums of the two
    means inside [numpy.cov]) and [dot] (its dot product). *)
Module binary64.
Import PrimFloat.
Local Open Scope float_scope.

(** A price frame: the rows [(date, Close)], oldest first. *)
Definition Frame : Type := list (Z * float).

Definition index (df : Frame) : list Z := map fst df.
Definition Close (df : Frame) : list float := map snd df.

(** The frames of the data model: no date occurs twice and no closing
    price is NaN. *)
Definition well_formed (df : Frame) : Prop :=
  List.NoDup (index df) /\ Forall (fun x => is_nan x = false) (Close df).

(** [close.loc[labels]] *)
Definition loc (df : Frame) (labels : list Z) : list float :=
  flat_map (fun d => Close (List.filter (fun row => Z.eqb (fst row) d) df)) labels.

(** [float(n)] of an integer; exact below 2^53. *)
Fixpoint of_pos (p : positive) : float :=
  match p with
  | xH => 1
  | xO q => 2 * of_pos q
  | xI q => 2 * of_pos q + 1
  end.

Definition of_Z (z : Z) : float :=
  match z with
  | Z0 => 0
  | Zpos p => of_pos p
  | Zneg p => - of_pos p
  end.

Definition of_nat (n : nat) : float := of_Z (Z.of_nat n).

(** [Series.pct_change()]: [s / s.shift(1) - 1]; the first entry, which
    has no predecessor, is NaN. *)
Definition pct_change (s : list float) : list float :=
  map (fun '(x, prev) =>
         match prev with
         | Some p => x / p - 1
         | None => nan
         end)
      (combine s (numeric.shift 1 s)).

(** [Series.dropna()] *)
Definition dropna (s : list float) : list float :=
  List.filter (fun x => negb (is_nan x)) s.

(** The dates [Series.cov] keeps: those where both series have a value. *)
Definition both_defined (p : float * float) : bool :=
  negb (is_nan (fst p)) && negb (is_nan (snd p)).

(** The daily returns in the words of the specification: the change from
    one aligned bar to the next, as a fraction of the earlier close. *)
Fixpoint daily_returns (close : list float) : list float :=
  match close with
  | prev :: (x :: _) as rest => (x / prev - 1) :: daily_returns rest
  | _ => []
  end.

Section Reductions.

Variable sum : list float -> float.
Variable sum_cov : list float -> float.
Variable dot : list float -> list float -> float.

(** [Series.var()], pandas' [nanvar] with [ddof=1]: NaN below two
    observations, else the mean, then the squared deviations from it. *)
Definition var (values : list float) : float :=
  let count := length values in
  if (count <=? 1)%nat then nan
  else
    let avg := sum values / of_nat count in
    sum (map (fun x => (avg - x) * (avg - x)) values) / of_nat (count - 1).

(** [Series.cov()] on the dates both series have: NaN without any, else
    [numpy.cov(a, b, ddof=1)[0, 1]], which subtracts the two means, takes
    the dot product and multiplies it by [1 / (n - 1)]. *)
Definition cov (pairs : list (float * float)) : float :=
  match pairs with
  | [] => nan
  | _ =>
      let a := map fst pairs in
      let b := map snd pairs in
      let n := length pairs in
      let avg_a := sum_cov a / of_nat n in
      let avg_b := sum_cov b / of_nat n in
      dot (map (fun x => x - avg_a) a) (map (fun y => y - avg_b) b)
      * (1 / of_nat (n - 1))
  end.

(** [calculate_beta] *)
Definition calculate_beta (asset benchmark : Frame) (window : nat) : float :=
  match asset, benchmark with
  | [], _ => 1
  | _, [] => 1
  | _, _ =>
      let common_idx := divergence.intersection (index asset) (index benchmark) in
      let asset_close := numeric.tail window (loc asset common_idx) in
      let bench_close := numeric.tail window (loc benchmark common_idx) in
      if (length asset_close <? 20)%nat then 1
      else
        let asset_returns := pct_change asset_close in
        let bench_returns := pct_change bench_close in
        let covariance :=
          cov (List.filter both_defined (combine asset_returns bench_returns)) in
        let variance := var (dropna bench_returns) in
        if variance =? 0 then 1
        else covariance / variance
  end.

(** Covariance and variance in the words of the specification, to be
    compared with the computation above: the sample statistics
    (denominator [n - 1]) of the observations around their means. *)
Definition mean (total : list float -> float) (xs : list float) : float :=
  total xs / of_nat (length xs).

Definition sample_variance (xs : list float) : float :=
  if (length xs <? 2)%nat then nan
  else
    sum (map (fun x => (mean sum xs - x) * (mean sum xs - x)) xs)
    / of_nat (length xs - 1).

Definition sample_covariance (xs ys : list float) : float :=
  match xs with
  | [] => nan
  | _ =>
      dot (map (fun x => x - mean sum_cov xs) xs) (map (fun y => y - mean sum_cov ys) ys)
      * (1 / of_nat (length xs - 1))
  end.

End Reductions.

(** Two orders of summation.  Left to right: *)
Definition sum_sequential (a : list float) : float := fold_left add a 0.

Definition dot_sequential (a b : list float) : float :=
  sum_sequential (map (fun '(x, y) => x * y) (combine a b)).

(** numpy's [add.reduce] on a contiguous array of doubles (pairwise
    summation): below 8 numbers left to right; up to 128 numbers eight
    running sums, one per position modulo 8 over the whole rows of eight,
    added as [((r0+r1)+(r2+r3))+((r4+r5)+(r6+r7))], then the rest left to
    right; above 128 numbers the two halves separately, the first half
    cut to a multiple of 8. *)
Fixpoint add_rows (r : list float) (rows : nat) (a : list float) : list float :=
  match rows with
  | O => r
  | S rows' =>
      add_rows (map (fun '(x, y) => x + y) (combine r (firstn 8 a))) rows' (skipn 8 a)
  end.

Definition sum_block (a : list float) : float :=
  let n := length a in
  if (n <? 8)%nat then fold_left add a 0
  else
    let r := add_rows (firstn 8 a) (n / 8 - 1) (skipn 8 a) in
    let r := fun i => nth i r 0 in
    fold_left add (skipn (n / 8 * 8) a)
      (((r 0%nat + r 1%nat) + (r 2%nat + r 3%nat))
       + ((r 4%nat + r 5%nat) + (r 6%nat + r 7%nat))).

Fixpoint sum_pairwise_from (depth : nat) (a : list float) : float :=
  match depth with
  | O => sum_block a
  | S depth' =>
      let n := length a in
      if (n <=? 128)%nat then sum_block a
      else
        let n2 := (n / 2 - (n / 2) mod 8)%nat in
        sum_pairwise_from depth' (firstn n2 a) + sum_pairwise_from depth' (skipn n2 a)
  end.

Definition sum_pairwise (a : list float) : float := sum_pairwise_from (length a) a.

End binary64.

(** ** indicators/volatility.py *)

Module volatility.
Import numeric config.
Local Open Scope R_scope.

Definition Rltb (x y : R) : bool := if Rlt_dec x y then true else false.

Definition Rsum (l : list R) : R := fold_right Rplus 0 l.

(** One entry of [np.log(close / close.shift(1))].  The quotient is NaN or
    infinite when the earlier close is missing or zero, and its logarithm
    is NaN or infinite unless the quotient is positive; the rolling window
    below treats an infinite entry like NaN, so one undefined value stands
    for all of them. *)
Definition log_return (x : R) (prev : option R) : option R :=
  match prev with
  | None => None
  | Some p =>
      if Req_EM_T p 0 then None
      else if Rlt_dec 0 (x / p) then Some (ln (x / p))
      else None
  end.

(** The observations of a window, when none of them is NaN. *)
Fixpoint all_defined (s : list (option R)) : option (list R) :=
  match s with
  | [] => Some []
  | None :: _ => None
  | Some x :: s' =>
      match all_defined s' with
      | Some xs => Some (x :: xs)
      | None => None
      end
  end.

(** Sample standard deviation ([ddof=1]): NaN on fewer than two
    observations. *)
Definition sample_std (xs : list R) : option R :=
  if (length xs <? 2)%nat then None
  else
    let m := Rsum xs / INR (length xs) in
    Some (sqrt (Rsum (map (fun x => (x - m) * (x - m)) xs) / INR (length xs - 1))).

(** [s.rolling(window=w).std()]: at position [i] the window holds the [w]
    entries ending at [i]; with pandas' default [min_periods = w] the value
    is NaN unless the window is complete and free of NaN. *)
Definition rolling_std (w : nat) (s : list (option R)) : list (option R) :=
  map (fun i =>
         if (w <=? i + 1)%nat then
           match all_defined (firstn w (skipn (i + 1 - w) s)) with
           | Some xs => sample_std xs
           | None => None
           end
         else None)
      (seq 0 (length s)).

(** [np.log(close / close.shift(1))] *)
Definition log_returns (close : list R) : list (option R) :=
  map (fun '(x, prev) => log_return x prev) (combine close (shift 1 close)).

(** [calculate_historical_volatility]; [prices] is the column of closes. *)
Definition calculate_historical_volatility (CALC_PARAMS : CalcParams)
    (prices : list R) (window : option nat) : list (option R) :=
  let window :=
    match window with
    | None => VOL_WINDOW CALC_PARAMS
    | Some w => w
    end in
  match prices with
  | [] => []
  | _ =>
      let close := prices in
      let log_returns := log_returns close in
      map (fun v => match v with
                    | Some sd => Some (sd * sqrt 252 * 100)
                    | None => None
                    end)
          (rolling_std window log_returns)
  end.

(** [Series.mean()], which skips NaN and is NaN when nothing is left. *)
Definition mean (s : list (option R)) : option R :=
  match dropna s with
  | [] => None
  | xs => Some (Rsum xs / INR (length xs))
  end.

(** [is_volatility_spiking] *)
Definition is_volatility_spiking (CALC_PARAMS : CalcParams) (prices : list R) : bool :=
  let hv := calculate_historical_volatility CALC_PARAMS prices None in
  if (length hv <? 20)%nat then false
  else
    let recent_5d := mean (tail 5 hv) in
    let recent_20d := mean (tail 20 hv) in
    match recent_5d, recent_20d with
    | Some a, Some b => Rltb (b * (3 / 2)) a
    | _, _ => false
    end.

(** [get_volatility_percentile].  The percentile is a count over a count,
    a rational number whatever the volatilities are. *)
Definition get_volatility_percentile (WINDOW_PARAMS : WindowParams)
    (volatility : list (option R)) (lookback : option nat) : Q :=
  let lookback :=
    match lookback with
    | None => VOL_LOOKBACK WINDOW_PARAMS
    | Some n => n
    end in
  let lookback :=
    if (length volatility <? lookback)%nat then length volatility else lookback in
  match lookback with
  | O => 50%Q
  | _ =>
      let recent_vol := dropna (tail lookback volatility) in
      match iloc_last recent_vol with
      | None => 50%Q
      | Some current_vol =>
          (inject_Z (Z.of_nat (length (List.filter (fun v => Rltb v current_vol) recent_vol)))
           / inject_Z (Z.of_nat (length recent_vol)) * 100)%Q
      end
  end.

(** The key of the sort in [check_volatility_alert]:
    [priority.get(x[0], 99)]. *)
Definition move_priority (alert : string * string) : nat :=
  if String.eqb (fst alert) "critical" then 0
  else if String.eqb (fst alert) "danger" then 1
  else if String.eqb (fst alert) "warning" then 2
  else 99.

(** [check_volatility_alert]: the level and the colour of the alert
    returned; the messages, formatted renderings of the inputs, are not
    kept. *)
Definition check_volatility_alert (ALERT_THRESHOLDS : VolatilityThresholds)
    (daily_change weekly_change hv_percentile : Q) : string * string :=
  let alerts := [] in
  let alerts :=
    if Qleb (JPY_DAILY_MOVE ALERT_THRESHOLDS) (Qabs daily_change)
    then alerts ++ [("danger"%string, "#FF5722"%string)] else alerts in
  let alerts :=
    if Qleb (JPY_WEEKLY_MOVE ALERT_THRESHOLDS) (Qabs weekly_change)
    then alerts ++ [("danger"%string, "#FF1744"%string)] else alerts in
  let alerts :=
    if Qleb (VOL_PERCENTILE_EXTREME ALERT_THRESHOLDS) hv_percentile
    then alerts ++ [("critical"%string, "#9C27B0"%string)]
    else if Qleb (VOL_PERCENTILE_HIGH ALERT_THRESHOLDS) hv_percentile
    then alerts ++ [("warning"%string, "#FFD600"%string)]
    else alerts in
  match sorted_by move_priority alerts with
  | first :: _ => first
  | [] => ("safe"%string, "#00C853"%string)
  end.

(** One row of an OHLC frame, for the functions that read more than the
    close; these need no logarithm and are kept rational. *)
Record Bar : Type := {
  High : Q;
  Low : Q;
  Close : Q
}.

Definition Qmax2 (x y : Q) : Q := if Qleb x y then y else x.

(** One entry of [pd.concat([tr1, tr2, tr3], axis=1).max(axis=1)]: the
    row maximum skips NaN, so the first row, which has no previous close,
    keeps [high - low]. *)
Definition true_range (bar : Bar) (prev_close : option Q) : Q :=
  let tr1 := (High bar - Low bar)%Q in
  match prev_close with
  | None => tr1
  | Some c =>
      let tr2 := Qabs (High bar - c) in
      let tr3 := Qabs (Low bar - c) in
      Qmax2 (Qmax2 tr1 tr2) tr3
  end.

(** [s.rolling(window=w).mean()] on a series without NaN. *)
Definition rolling_mean (w : nat) (s : list Q) : list float :=
  map (fun i =>
         if (w <=? i + 1)%nat then
           fdiv (Some (Qsum (firstn w (skipn (i + 1 - w) s))))
                (Some (inject_Z (Z.of_nat w)))
         else None)
      (seq 0 (length s)).

(** [calculate_atr] *)
Definition calculate_atr (WINDOW_PARAMS : WindowParams)
    (prices : list Bar) (window : option nat) : list float :=
  let window :=
    match window with
    | None => ATR_WINDOW WINDOW_PARAMS
    | Some w => w
    end in
  match prices with
  | [] => []
  | _ =>
      let true_range :=
        map (fun '(bar, prev) => true_range bar prev)
            (combine prices (shift 1 (map Close prices))) in
      rolling_mean window true_range
  end.

End volatility.

(** * Properties *)

Section NumericFacts.
Import numeric.
Local Open Scope Q_scope.

Lemma Qleb_le (x y : Q) : Qleb x y = true <-> x <= y.
Proof. apply Qle_bool_iff. Qed.

Lemma Qleb_gt (x y : Q) : Qleb x y = false <-> y < x.
Proof.
  unfold Qleb. split; intros H.
  - apply Qnot_le_lt. intros Hle. apply Qle_bool_iff in Hle. congruence.
  - destruct (Qle_bool x y) eqn:E; [|reflexivity].
    apply Qle_bool_iff in E. Lqa.lra.
Qed.

Lemma Qltb_lt (x y : Q) : Qltb x y = true <-> x < y.
Proof. unfold Qltb. rewrite negb_true_iff. apply (Qleb_gt y x). Qed.

Lemma Qltb_ge (x y : Q) : Qltb x y = false <-> y <= x.
Proof. unfold Qltb. rewrite negb_false_iff. apply Qle_bool_iff. Qed.

Lemma iloc_last_cons {A : Type} (x y : A) (l : list A) :
  iloc_last (x :: y :: l) = iloc_last (y :: l).
Proof.
  unfold iloc_last. cbn [length].
  replace (S (S (length l)) - 1)%nat with (S (length l)) by lia.
  replace (S (length l) - 1)%nat with (length l) by lia.
  reflexivity.
Qed.

Lemma iloc_last_In {A : Type} (l : list A) (x : A) :
  iloc_last l = Some x -> In x l.
Proof. unfold iloc_last. apply nth_error_In. Qed.

Lemma iloc_last_nonempty {A : Type} (l : list A) :
  l <> [] -> exists x, iloc_last l = Some x.
Proof.
  intros Hl. unfold iloc_last.
  destruct (nth_error l (length l - 1)) eqn:E; [eauto|].
  apply nth_error_None in E. destruct l; [congruence | cbn in E; lia].
Qed.

Lemma iloc_last_nil {A : Type} (l : list A) :
  iloc_last l = None -> l = [].
Proof.
  intros H. destruct l as [|x l]; [reflexivity|].
  destruct (iloc_last_nonempty (x :: l)) as [y Hy]; congruence.
Qed.

End NumericFacts.

Section CompositeRiskScore.
Import numeric alerts.
Local Open Scope Q_scope.

Ltac case_bands :=
  repeat match goal with
         | |- context [if ?b then _ else _] => destruct b
         end.

Lemma spread_band_bounds (s : Q) : 0 <= spread_band s <= 40.
Proof. unfold spread_band. case_bands; split; discriminate. Qed.

Lemma volatility_band_bounds (p : Q) : 0 <= volatility_band p <= 30.
Proof. unfold volatility_band. case_bands; split; discriminate. Qed.

Lemma divergence_band_bounds (d : bool) (a : Q) : 0 <= divergence_band d a <= 30.
Proof. unfold divergence_band. case_bands; split; discriminate. Qed.

Lemma score_spread_fst (s score : Q) (factors : list string) :
  fst (score_spread s (score, factors)) == score + spread_band s.
Proof. unfold score_spread, spread_band. case_bands; cbn [fst]; Lqa.lra. Qed.

Lemma score_volatility_fst (p score : Q) (factors : list string) :
  fst (score_volatility p (score, factors)) == score + volatility_band p.
Proof. unfold score_volatility, volatility_band. case_bands; cbn [fst]; Lqa.lra. Qed.

Lemma score_divergence_fst (d : gmap string pyval) (score : Q) (factors : list string) :
  fst (score_divergence d (score, factors)) ==
  score + divergence_band (truthy (get d "divergence_detected" (PBool false)))
                          (py_abs (get d "divergence_score" (PFloat 0))).
Proof. unfold score_divergence, divergence_band. case_bands; cbn [fst]; Lqa.lra. Qed.

(** C1.  The composite risk score is the sum of one spread band, one
    volatility band and one divergence band (the last only when divergence
    is detected), hence lies in [0,100]; and with spread 1.0, volatility
    percentile 97 and a detected divergence of score -25 the result is
    exactly 100 with the three factor strings in the order spread,
    volatility, divergence. *)
Theorem composite_risk_score_bands
    (spread_stats vol_stats : gmap string Q) (divergence_result : gmap string pyval) :
  let result := calculate_composite_risk_score spread_stats vol_stats divergence_result in
  fst result ==
    spread_band (get spread_stats "current" 5)
    + volatility_band (get vol_stats "hv_percentile" 50)
    + divergence_band (truthy (get divergence_result "divergence_detected" (PBool false)))
                      (py_abs (get divergence_result "divergence_score" (PFloat 0)))
  /\ 0 <= fst result <= 100
  /\ (spread_stats !! "current" = Some 1 ->
      vol_stats !! "hv_percentile" = Some 97 ->
      divergence_result !! "divergence_detected" = Some (PBool true) ->
      divergence_result !! "divergence_score" = Some (PFloat (-25)) ->
      result = (100, ["利差极度收窄"; "波动率处于极端水平"; "严重资产背离"]%string)).
Proof.
  intros result.
  assert (Hsum : fst result ==
    spread_band (get spread_stats "current" 5)
    + volatility_band (get vol_stats "hv_percentile" 50)
    + divergence_band (truthy (get divergence_result "divergence_detected" (PBool false)))
                      (py_abs (get divergence_result "divergence_score" (PFloat 0)))).
  { subst result. unfold calculate_composite_risk_score.
    destruct (score_spread (get spread_stats "current" 5) (0, [])) as [s1 f1] eqn:E1.
    destruct (score_volatility (get vol_stats "hv_percentile" 50) (s1, f1)) as [s2 f2] eqn:E2.
    rewrite score_divergence_fst.
    pose proof (score_volatility_fst (get vol_stats "hv_percentile" 50) s1 f1) as H2.
    rewrite E2 in H2. cbn [fst] in H2.
    pose proof (score_spread_fst (get spread_stats "current" 5) 0 []) as H1.
    rewrite E1 in H1. cbn [fst] in H1.
    rewrite H2, H1. Lqa.lra. }
  split; [exact Hsum|]. split.
  - rewrite Hsum.
    pose proof (spread_band_bounds (get spread_stats "current" 5)).
    pose proof (volatility_band_bounds (get vol_stats "hv_percentile" 50)).
    pose proof (divergence_band_bounds
                  (truthy (get divergence_result "divergence_detected" (PBool false)))
                  (py_abs (get divergence_result "divergence_score" (PFloat 0)))).
    Lqa.lra.
  - intros Hs Hv Hd Hsc. subst result.
    unfold calculate_composite_risk_score, score_divergence, get.
    rewrite Hs, Hv, Hd, Hsc. reflexivity.
Qed.

Lemma composite_risk_score_bands_witness :
  calculate_composite_risk_score
    (<["current" := 1]> ∅) (<["hv_percentile" := 97]> ∅)
    (<["divergence_detected" := PBool true]> (<["divergence_score" := PFloat (-25)]> ∅))
  = (100, ["利差极度收窄"; "波动率处于极端水平"; "严重资产背离"]%string).
Proof.
  apply (composite_risk_score_bands
           (<["current" := 1]> ∅) (<["hv_percentile" := 97]> ∅)
           (<["divergence_detected" := PBool true]>
              (<["divergence_score" := PFloat (-25)]> ∅)));
    reflexivity.
Defined.

End CompositeRiskScore.

Section SpreadAlert.
Import numeric config alerts spread.
Local Open Scope Q_scope.

Variable ALERT_THRESHOLDS : AlertThresholds.

Let level (s : Q) : string := fst (check_spread_alert ALERT_THRESHOLDS s).

(** The strings of the levels convert back to the levels they name. *)
Lemma alert_level_value (l : AlertLevel) : alert_level (value l) = l.
Proof. destruct l; reflexivity. Qed.

Lemma check_spread_alert_critical (s : Q) :
  level s = "critical"%string <-> s <= SPREAD_CRITICAL ALERT_THRESHOLDS.
Proof.
  unfold level, check_spread_alert, _to_scalar.
  destruct (Qleb s (SPREAD_CRITICAL _)) eqn:Ec.
  - apply Qleb_le in Ec. cbn. tauto.
  - apply Qleb_gt in Ec.
    destruct (Qleb s (SPREAD_DANGER _)); [|destruct (Qleb s (SPREAD_WARNING _))];
      cbn; (split; [discriminate | intros; Lqa.lra]).
Qed.

Lemma check_spread_alert_danger (s : Q) :
  level s = "danger"%string <->
  SPREAD_CRITICAL ALERT_THRESHOLDS < s /\ s <= SPREAD_DANGER ALERT_THRESHOLDS.
Proof.
  unfold level, check_spread_alert, _to_scalar.
  destruct (Qleb s (SPREAD_CRITICAL _)) eqn:Ec.
  - apply Qleb_le in Ec. cbn. split; [discriminate | intros [? _]; Lqa.lra].
  - apply Qleb_gt in Ec. destruct (Qleb s (SPREAD_DANGER _)) eqn:Ed.
    + apply Qleb_le in Ed. cbn. tauto.
    + apply Qleb_gt in Ed. destruct (Qleb s (SPREAD_WARNING _));
        cbn; (split; [discriminate | intros [_ ?]; Lqa.lra]).
Qed.

Lemma check_spread_alert_warning (s : Q) :
  level s = "warning"%string <->
  SPREAD_CRITICAL ALERT_THRESHOLDS < s /\ SPREAD_DANGER ALERT_THRESHOLDS < s /\
  s <= SPREAD_WARNING ALERT_THRESHOLDS.
Proof.
  unfold level, check_spread_alert, _to_scalar.
  destruct (Qleb s (SPREAD_CRITICAL _)) eqn:Ec.
  - apply Qleb_le in Ec. cbn. split; [discriminate | intros [? _]; Lqa.lra].
  - apply Qleb_gt in Ec. destruct (Qleb s (SPREAD_DANGER _)) eqn:Ed.
    + apply Qleb_le in Ed. cbn. split; [discriminate | intros [_ [? _]]; Lqa.lra].
    + apply Qleb_gt in Ed. destruct (Qleb s (SPREAD_WARNING _)) eqn:Ew.
      * apply Qleb_le in Ew. cbn. tauto.
      * apply Qleb_gt in Ew. cbn. split; [discriminate | intros [_ [_ ?]]; Lqa.lra].
Qed.

Lemma check_spread_alert_safe (s : Q) :
  level s = "safe"%string <->
  SPREAD_CRITICAL ALERT_THRESHOLDS < s /\ SPREAD_DANGER ALERT_THRESHOLDS < s /\
  SPREAD_WARNING ALERT_THRESHOLDS < s.
Proof.
  unfold level, check_spread_alert, _to_scalar.
  destruct (Qleb s (SPREAD_CRITICAL _)) eqn:Ec.
  - apply Qleb_le in Ec. cbn. split; [discriminate | intros [? _]; Lqa.lra].
  - apply Qleb_gt in Ec. destruct (Qleb s (SPREAD_DANGER _)) eqn:Ed.
    + apply Qleb_le in Ed. cbn. split; [discriminate | intros [_ [? _]]; Lqa.lra].
    + apply Qleb_gt in Ed. destruct (Qleb s (SPREAD_WARNING _)) eqn:Ew.
      * apply Qleb_le in Ew. cbn. split; [discriminate | intros [_ [_ ?]]; Lqa.lra].
      * apply Qleb_gt in Ew. cbn. tauto.
Qed.

Lemma check_spread_alert_levels (s : Q) :
  level s = "critical"%string \/ level s = "danger"%string \/
  level s = "warning"%string \/ level s = "safe"%string.
Proof.
  unfold level, check_spread_alert.
  destruct (Qleb _ (SPREAD_CRITICAL _)); [auto|].
  destruct (Qleb _ (SPREAD_DANGER _)); [auto|].
  destruct (Qleb _ (SPREAD_WARNING _)); auto.
Qed.

(** C3.  [check_spread_alert] is monotone: a lower spread never gets a less
    severe level than a higher one, for the order safe < warning < danger <
    critical; and the level is that of the first of the tests
    [<= critical], [<= danger], [<= warning] that holds, safe when none
    does. *)
Theorem check_spread_alert_monotone (s1 s2 : Q) :
  s1 < s2 ->
  (severity (alert_level (level s2)) <= severity (alert_level (level s1)))%nat
  /\ (forall s,
        (level s = "critical"%string <-> s <= SPREAD_CRITICAL ALERT_THRESHOLDS)
        /\ (level s = "danger"%string <->
            SPREAD_CRITICAL ALERT_THRESHOLDS < s /\ s <= SPREAD_DANGER ALERT_THRESHOLDS)
        /\ (level s = "warning"%string <->
            SPREAD_CRITICAL ALERT_THRESHOLDS < s /\ SPREAD_DANGER ALERT_THRESHOLDS < s
            /\ s <= SPREAD_WARNING ALERT_THRESHOLDS)
        /\ (level s = "safe"%string <->
            SPREAD_CRITICAL ALERT_THRESHOLDS < s /\ SPREAD_DANGER ALERT_THRESHOLDS < s
            /\ SPREAD_WARNING ALERT_THRESHOLDS < s)).
Proof.
  intros Hlt. split.
  - destruct (check_spread_alert_levels s2) as [H2|[H2|[H2|H2]]];
      destruct (check_spread_alert_levels s1) as [H1|[H1|[H1|H1]]];
      rewrite H1, H2; cbn; try lia; exfalso;
      first [ apply check_spread_alert_critical in H2
            | apply check_spread_alert_danger in H2
            | apply check_spread_alert_warning in H2 ];
      first [ apply check_spread_alert_danger in H1
            | apply check_spread_alert_warning in H1
            | apply check_spread_alert_safe in H1 ];
      Lqa.lra.
  - intros s. split; [apply check_spread_alert_critical|].
    split; [apply check_spread_alert_danger|].
    split; [apply check_spread_alert_warning | apply check_spread_alert_safe].
Qed.

End SpreadAlert.

Lemma check_spread_alert_monotone_witness :
  let th := {| config.SPREAD_CRITICAL := 3 # 2; config.SPREAD_DANGER := 2;
               config.SPREAD_WARNING := 5 # 2;
               config.DIVERGENCE_THRESHOLD := - (5 # 100) |} in
  (alerts.severity (alerts.alert_level (fst (spread.check_spread_alert th 3)))
   <= alerts.severity (alerts.alert_level (fst (spread.check_spread_alert th (13 # 10)))))%nat.
Proof.
  intros th.
  refine (proj1 (check_spread_alert_monotone th (13 # 10) 3 _)).
  reflexivity.
Defined.

Section SpreadVelocity.
Import numeric spread.
Local Open Scope Q_scope.

Lemma tail_nonempty {A : Type} (n : nat) (l : list A) :
  (0 < n)%nat -> l <> [] -> tail n l <> [].
Proof.
  intros Hn Hl Ht. unfold tail in Ht.
  apply (f_equal (@length A)) in Ht. rewrite length_skipn in Ht. cbn in Ht.
  destruct l; [congruence | cbn in Ht; lia].
Qed.

(** The velocity is always defined for a positive window: the function
    does not raise. *)
Lemma calculate_spread_velocity_total (spread_df : SpreadFrame) (window : nat) :
  (0 < window)%nat -> exists v, calculate_spread_velocity spread_df window = Some v.
Proof.
  intros Hw. unfold calculate_spread_velocity.
  destruct spread_df as [[|c column]|]; eauto.
  destruct (length (dropna (c :: column)) <? window)%nat eqn:E; eauto.
  apply Nat.ltb_ge in E.
  assert (Hne : tail window (dropna (c :: column)) <> []).
  { apply tail_nonempty; [exact Hw|]. intros H0. rewrite H0 in E. cbn in E. lia. }
  destruct (iloc_last_nonempty _ Hne) as [x Hx]. rewrite Hx.
  destruct (tail window (dropna (c :: column))) as [|y t]; [congruence|].
  cbn. eauto.
Qed.

(** C2, as stated, fails: on a series that rises over its twenty
    observations and falls over the last five, the 20-day velocity is
    positive and [is_spread_accelerating] answers true. *)
Lemma is_spread_accelerating_nonneg_long_velocity :
  let spread_df := Some (map Some (repeat 1 15 ++ [10; 9; 8; 7; 6])) in
  calculate_spread_velocity spread_df 20 = Some (5 # 20)
  /\ 0 <= 5 # 20
  /\ calculate_spread_velocity spread_df 5 = Some (-4 # 5)
  /\ is_spread_accelerating spread_df = Some true.
Proof.
  cbv zeta. split; [vm_compute; reflexivity|].
  split; [discriminate|].
  split; vm_compute; reflexivity.
Qed.

(** C2, amended.  [is_spread_accelerating] always returns, and returns true
    exactly when the 5-day velocity is negative and below the 20-day
    velocity; so with a non-negative 20-day velocity the answer is false
    exactly when the 5-day velocity is non-negative too. *)
Theorem is_spread_accelerating_spec (spread_df : SpreadFrame) :
  exists v5 v20,
    calculate_spread_velocity spread_df 5 = Some v5
    /\ calculate_spread_velocity spread_df 20 = Some v20
    /\ (is_spread_accelerating spread_df = Some true <-> v5 < v20 /\ v5 < 0)
    /\ (is_spread_accelerating spread_df = Some false <-> ~ (v5 < v20 /\ v5 < 0))
    /\ (0 <= v20 -> (is_spread_accelerating spread_df = Some false <-> 0 <= v5)).
Proof.
  destruct (calculate_spread_velocity_total spread_df 5) as [v5 H5]; [lia|].
  destruct (calculate_spread_velocity_total spread_df 20) as [v20 H20]; [lia|].
  exists v5, v20. split; [exact H5|]. split; [exact H20|].
  unfold is_spread_accelerating. rewrite H5, H20.
  destruct (Qltb v5 v20) eqn:E1; destruct (Qltb v5 0) eqn:E2; cbn;
    try (apply Qltb_lt in E1); try (apply Qltb_ge in E1);
    try (apply Qltb_lt in E2); try (apply Qltb_ge in E2).
  all: repeat split; intros; try discriminate; try tauto; try Lqa.lra.
  all: try (exfalso; Lqa.lra).
  all: try (intros [? ?]; Lqa.lra).
Qed.

Lemma is_spread_accelerating_spec_witness :
  is_spread_accelerating (Some (map Some (repeat 2 20))) = Some false.
Proof.
  destruct (is_spread_accelerating_spec (Some (map Some (repeat 2 20))))
    as (v5 & v20 & H5 & H20 & _ & _ & H).
  vm_compute in H5, H20.
  injection H5 as <-. injection H20 as <-.
  apply H; discriminate.
Defined.

End SpreadVelocity.

Section SpreadStatistics.
Import numeric spread.
Local Open Scope Q_scope.

Lemma count_less_le (spread : list Q) (current : Q) :
  (count_less spread current <= length spread)%nat.
Proof. unfold count_less. apply filter_length_le. Qed.

Lemma count_less_In (spread : list Q) (current x : Q) :
  In x (List.filter (fun y => Qltb y current) spread) <-> In x spread /\ x < current.
Proof. rewrite filter_In, Qltb_lt. tauto. Qed.

Lemma Qgt_flip_transitive : Transitive (fun a b : Q => b < a).
Proof. intros a b c Hab Hbc. Lqa.lra. Qed.

(** In a strictly decreasing series no observation is below the last. *)
Lemma count_less_decreasing (spread : list Q) (current : Q) :
  Sorted (fun a b => b < a) spread ->
  iloc_last spread = Some current ->
  count_less spread current = 0%nat.
Proof.
  intros Hs. apply Sorted_StronglySorted in Hs; [|exact Qgt_flip_transitive].
  induction Hs as [|x l Hl IH Hx]; intros Hlast.
  - reflexivity.
  - unfold count_less in *. cbn [List.filter].
    destruct l as [|y l'].
    + unfold iloc_last in Hlast. cbn in Hlast. injection Hlast as <-.
      replace (Qltb x x) with false; [reflexivity|].
      symmetry. apply Qltb_ge. Lqa.lra.
    + rewrite iloc_last_cons in Hlast.
      assert (Hc : current < x).
      { rewrite List.Forall_forall in Hx. apply Hx. apply iloc_last_In. exact Hlast. }
      replace (Qltb x current) with false by (symmetry; apply Qltb_ge; Lqa.lra).
      apply IH. exact Hlast.
Qed.

Lemma inject_nat_pos (n : nat) : (0 < n)%nat -> 0 < inject_Z (Z.of_nat n).
Proof.
  intros Hn. change 0 with (inject_Z 0). rewrite <- Zlt_Qlt. lia.
Qed.

Lemma ratio_bounds (k n : nat) :
  (k <= n)%nat -> (0 < n)%nat ->
  0 <= inject_Z (Z.of_nat k) / inject_Z (Z.of_nat n) * 100 <= 100.
Proof.
  intros Hk Hn.
  pose proof (inject_nat_pos n Hn) as Hpos.
  assert (H0 : 0 <= inject_Z (Z.of_nat k)).
  { change 0 with (inject_Z 0). rewrite <- Zle_Qle. lia. }
  assert (H1 : inject_Z (Z.of_nat k) <= inject_Z (Z.of_nat n)).
  { rewrite <- Zle_Qle. lia. }
  assert (Hq0 : 0 <= inject_Z (Z.of_nat k) / inject_Z (Z.of_nat n)).
  { apply Qle_shift_div_l; [exact Hpos | Lqa.lra]. }
  assert (Hq1 : inject_Z (Z.of_nat k) / inject_Z (Z.of_nat n) <= 1).
  { apply Qle_shift_div_r; [exact Hpos | Lqa.lra]. }
  split; Lqa.lra.
Qed.

(** C4.  On a spread column with at least one observation (an entry that
    is not NaN), the ['percentile'] entry of the statistics is the number
    of observations strictly below the latest one, over the number of
    observations, times 100; it lies in [0,100], and it is 0 when the
    observations are strictly decreasing. *)
Theorem spread_percentile (column : list float) :
  dropna column <> [] ->
  exists current percentile,
    iloc_last (dropna column) = Some current
    /\ get_spread_statistics (Some column) !! "percentile" = Some percentile
    /\ percentile =
         inject_Z (Z.of_nat (length (List.filter (fun x => Qltb x current) (dropna column))))
         / inject_Z (Z.of_nat (length (dropna column))) * 100
    /\ (forall x, In x (List.filter (fun x => Qltb x current) (dropna column)) <->
                  In x (dropna column) /\ x < current)
    /\ 0 <= percentile <= 100
    /\ (Sorted (fun a b => b < a) (dropna column) -> percentile == 0).
Proof.
  intros Hne.
  destruct (iloc_last_nonempty _ Hne) as [current Hcur].
  exists current. eexists. split; [exact Hcur|].
  split.
  { unfold get_spread_statistics.
    destruct column as [|c column]; [cbn in Hne; congruence|].
    rewrite Hcur. unfold _to_scalar.
    repeat (rewrite lookup_insert_ne by discriminate).
    rewrite lookup_insert_eq. reflexivity. }
  split; [reflexivity|].
  split; [intros x; apply count_less_In|].
  split.
  - apply ratio_bounds.
    + apply (count_less_le (dropna column) current).
    + destruct (dropna column); [congruence | cbn; lia].
  - intros Hs.
    pose proof (count_less_decreasing _ _ Hs Hcur) as H0.
    rewrite H0.
    unfold Qdiv. change (inject_Z (Z.of_nat 0)) with 0. ring.
Qed.

Lemma spread_percentile_witness :
  get_spread_statistics (Some [Some 3; None; Some (5 # 2); Some 2]) !! "percentile"
  = Some (inject_Z 0 / inject_Z 3 * 100).
Proof.
  destruct (spread_percentile [Some 3; None; Some (5 # 2); Some 2])
    as (current & percentile & Hcur & Hp & Heq & _).
  - cbn. discriminate.
  - vm_compute in Hcur. injection Hcur as <-.
    etransitivity; [exact Hp|]. rewrite Heq. reflexivity.
Defined.

End SpreadStatistics.

Section RelativeStrength.
Import numeric config divergence.
Local Open Scope Q_scope.

Variable ALERT_THRESHOLDS : AlertThresholds.
Variable CALC_PARAMS : CalcParams.

Lemma combine_diag {A : Type} (l : list A) :
  combine l l = map (fun x => (x, x)) l.
Proof. induction l as [|x l IH]; cbn; [reflexivity | now rewrite IH]. Qed.

(** A series measured against itself has relative strength 0 wherever the
    relative strength is defined. *)
Lemma relative_strength_self (series : Frame) (window : option nat) (i : nat) (v : Q) :
  nth_error (calculate_relative_strength CALC_PARAMS series series window) i = Some (Some v) ->
  v == 0.
Proof.
  unfold calculate_relative_strength.
  destruct series as [|row series]; [destruct i; discriminate|].
  set (returns := pct_change _ _).
  rewrite combine_diag, map_map, nth_error_map.
  destruct (nth_error returns i) as [[x|]|]; cbn; try discriminate.
  intros H. injection H as <-. ring.
Qed.

Lemma current_or_zero_self (series : Frame) (window : option nat) (last : float) :
  iloc_last (calculate_relative_strength CALC_PARAMS series series window) = Some last ->
  current_or_zero last == 0.
Proof.
  intros H. destruct last as [v|]; [|reflexivity].
  cbn. eapply relative_strength_self. exact H.
Qed.

(** C5.  With a divergence threshold that is negative, as the
    configuration has it: a price series used both as the single high-beta
    asset and as the benchmark has relative strength 0 at every position
    of the aligned index where the relative strength is defined, and
    [detect_divergence] on that one-asset map reports no divergence. *)
Theorem identical_series_no_divergence
    (name : string) (series : Frame) (window : option nat) :
  DIVERGENCE_THRESHOLD ALERT_THRESHOLDS < 0 ->
  (forall i v,
      nth_error (calculate_relative_strength CALC_PARAMS series series window) i
        = Some (Some v) -> v == 0)
  /\ divergence_detected
       (detect_divergence ALERT_THRESHOLDS CALC_PARAMS [(name, series)] series window)
     = false.
Proof.
  intros Hth. split; [intros i v; apply relative_strength_self|].
  unfold detect_divergence.
  destruct series as [|row series]; [reflexivity|].
  set (w := match window with Some w => w | None => _ end).
  cbn [fold_left]. unfold detect_step.
  destruct (iloc_last (calculate_relative_strength CALC_PARAMS (row :: series)
                         (row :: series) (Some w))) as [last|] eqn:E; [|reflexivity].
  apply current_or_zero_self in E.
  replace (Qltb (current_or_zero last) (DIVERGENCE_THRESHOLD ALERT_THRESHOLDS * 100))
    with false.
  - rewrite andb_false_r. reflexivity.
  - symmetry. apply Qltb_ge. rewrite E. Lqa.lra.
Qed.

(** A series of four closes against itself over two bars: undefined twice,
    then 0. *)
Example relative_strength_self_example :
  map (option_map Qred)
      (calculate_relative_strength CALC_PARAMS
         [(1%Z, 100); (2%Z, 110); (3%Z, 99); (4%Z, 120)]
         [(1%Z, 100); (2%Z, 110); (3%Z, 99); (4%Z, 120)] (Some 2%nat))
  = [None; None; Some 0; Some 0].
Proof. reflexivity. Qed.

End RelativeStrength.

Lemma identical_series_no_divergence_witness :
  let th := {| config.SPREAD_CRITICAL := 3 # 2; config.SPREAD_DANGER := 2;
               config.SPREAD_WARNING := 5 # 2;
               config.DIVERGENCE_THRESHOLD := - (5 # 100) |} in
  let params := {| config.VOL_WINDOW := 20; config.RELATIVE_STRENGTH_WINDOW := 20 |} in
  let series := [(1%Z, 100%Q); (2%Z, 110%Q); (3%Z, 99%Q); (4%Z, 120%Q)] in
  divergence.divergence_detected
    (divergence.detect_divergence th params [("BTC-USD"%string, series)] series (Some 2%nat))
  = false.
Proof.
  intros th params series.
  refine (proj2 (identical_series_no_divergence th params "BTC-USD" series (Some 2%nat) _)).
  reflexivity.
Defined.

Section DetectDivergenceUnfold.
Import numeric config divergence.
Local Open Scope Q_scope.

(** [detect_divergence] past its guard on an empty benchmark. *)
Lemma detect_divergence_nonempty (th : AlertThresholds) (params : CalcParams)
    (assets : list (string * Frame)) (bench : Frame) (w : nat) :
  bench <> [] ->
  detect_divergence th params assets bench (Some w)
  = let bench_return := window_return (Close bench) w in
    let '(divergence_scores, details, performance) :=
      fold_left (detect_step th params bench w bench_return) assets ([], [], ∅) in
    match divergence_scores with
    | [] =>
        {| divergence_detected := false; divergence_score := 0; details := details;
           benchmark_performance := bench_return; high_beta_performance := performance |}
    | _ =>
        {| divergence_detected := true; divergence_score := Qmean divergence_scores;
           details := details;
           benchmark_performance := bench_return; high_beta_performance := performance |}
    end.
Proof. intros Hne. destruct bench; [congruence | reflexivity]. Qed.

Lemma detect_divergence_empty (th : AlertThresholds) (params : CalcParams)
    (assets : list (string * Frame)) (window : option nat) :
  detect_divergence th params assets [] window
  = {| divergence_detected := false; divergence_score := 0; details := [];
       benchmark_performance := Some 0; high_beta_performance := ∅ |}.
Proof. reflexivity. Qed.

End DetectDivergenceUnfold.

Section DivergenceScore.
Import numeric config divergence.
Local Open Scope Q_scope.

Variable ALERT_THRESHOLDS : AlertThresholds.
Variable CALC_PARAMS : CalcParams.
Variable benchmark : Frame.
Variable window : nat.

Let bench_return : float := window_return (Close benchmark) window.
Let step := detect_step ALERT_THRESHOLDS CALC_PARAMS benchmark window bench_return.
Let flag := flagged_strength ALERT_THRESHOLDS CALC_PARAMS benchmark window.

Lemma dropna_app {A : Type} (l1 l2 : list (option A)) :
  dropna (l1 ++ l2) = dropna l1 ++ dropna l2.
Proof.
  induction l1 as [|[x|] l1 IH]; cbn; [reflexivity | now rewrite IH | exact IH].
Qed.

(** One turn of the loop appends the asset's relative strength to the
    scores and to the details exactly when the asset is flagged. *)
Lemma detect_step_flag (scores : list Q) (details : list Detail)
    (performance : gmap string float) (item : string * Frame) :
  exists details' performance',
    step (scores, details, performance) item
    = (scores ++ dropna [flag item], details', performance')
    /\ map detail_relative_strength details'
       = map detail_relative_strength details ++ dropna [flag item].
Proof.
  unfold step, detect_step, flag, flagged_strength.
  destruct item as [name df]. cbn [snd].
  destruct df as [|row df].
  { exists details, performance. cbn. now rewrite !app_nil_r. }
  destruct (iloc_last _) as [last|].
  2:{ exists details, performance. cbn. now rewrite !app_nil_r. }
  fold bench_return.
  destruct (fgeb bench_return (-2) && Qltb _ _).
  - eexists. eexists. split; [reflexivity|]. rewrite map_app. reflexivity.
  - eexists. eexists. split; [cbn; rewrite app_nil_r; reflexivity|].
    cbn. now rewrite app_nil_r.
Qed.

Lemma detect_fold_flag (items : list (string * Frame)) :
  forall scores details performance,
    map detail_relative_strength details = scores ->
    exists details' performance',
      fold_left step items (scores, details, performance)
      = (scores ++ dropna (map flag items), details', performance')
      /\ map detail_relative_strength details' = scores ++ dropna (map flag items).
Proof.
  induction items as [|item items IH]; intros scores details performance Hinv.
  - exists details, performance. cbn. rewrite app_nil_r. auto.
  - cbn [fold_left map].
    destruct (detect_step_flag scores details performance item)
      as (d1 & p1 & Hstep & Hd1).
    rewrite Hstep.
    destruct (IH (scores ++ dropna [flag item]) d1 p1) as (d2 & p2 & Hfold & Hd2).
    { rewrite Hd1, Hinv. reflexivity. }
    exists d2, p2. rewrite Hfold, Hd2.
    change (flag item :: map flag items) with ([flag item] ++ map flag items).
    rewrite dropna_app, app_assoc. auto.
Qed.

(** Every flagged relative strength is below the threshold times 100. *)
Lemma flagged_below_threshold (items : list (string * Frame)) :
  Forall (fun x => x < DIVERGENCE_THRESHOLD ALERT_THRESHOLDS * 100)
         (dropna (map flag items)).
Proof.
  induction items as [|item items IH]; cbn; [constructor|].
  destruct (flag item) as [x|] eqn:E; [|exact IH].
  constructor; [|exact IH].
  unfold flag, flagged_strength in E.
  destruct (snd item); [discriminate|].
  destruct (iloc_last _); [|discriminate].
  destruct (fgeb _ _ && Qltb _ _) eqn:Ec; [|discriminate].
  injection E as <-. apply andb_true_iff in Ec. apply Qltb_lt. tauto.
Qed.

Lemma Qsum_negative (l : list Q) :
  l <> [] -> Forall (fun x => x < 0) l -> Qsum l < 0.
Proof.
  intros Hne Hall. induction Hall as [|x l Hx Hl IH]; [congruence|].
  change (x + Qsum l < 0). destruct l as [|y l].
  - change (Qsum []) with 0. Lqa.lra.
  - assert (Qsum (y :: l) < 0) by (apply IH; discriminate). Lqa.lra.
Qed.

Lemma Qmean_negative (l : list Q) :
  l <> [] -> Forall (fun x => x < 0) l -> Qmean l < 0.
Proof.
  intros Hne Hall. unfold Qmean.
  apply Qlt_shift_div_r.
  - apply inject_nat_pos. destruct l; [congruence | cbn; lia].
  - rewrite Qmult_0_l. apply Qsum_negative; assumption.
Qed.

Lemma detect_divergence_score_at (high_beta_assets : list (string * Frame)) :
  DIVERGENCE_THRESHOLD ALERT_THRESHOLDS < 0 ->
  let result :=
    detect_divergence ALERT_THRESHOLDS CALC_PARAMS high_beta_assets benchmark (Some window) in
  let flagged := map detail_relative_strength (details result) in
  (benchmark <> [] -> flagged = dropna (map flag high_beta_assets))
  /\ (flagged <> [] ->
      divergence_detected result = true
      /\ divergence_score result = Qsum flagged / inject_Z (Z.of_nat (length flagged)))
  /\ (flagged = [] ->
      divergence_detected result = false /\ divergence_score result = 0)
  /\ (divergence_detected result = true -> divergence_score result <= 0).
Proof.
  intros Hth result flagged. subst result flagged.
  destruct (list_eq_nil_dec benchmark) as [Eb|Hb].
  { assert (Hres : detect_divergence ALERT_THRESHOLDS CALC_PARAMS high_beta_assets
                       benchmark (Some window)
                     = detect_divergence ALERT_THRESHOLDS CALC_PARAMS high_beta_assets
                         [] (Some window)) by (rewrite Eb; reflexivity).
    rewrite Hres, detect_divergence_empty. cbn.
    repeat split; try congruence; try discriminate. }
  rewrite (detect_divergence_nonempty _ _ _ _ _ Hb). cbv zeta.
  fold bench_return. fold step.
  destruct (detect_fold_flag high_beta_assets [] [] ∅ eq_refl)
    as (d & p & Hfold & Hd).
  rewrite Hfold. cbn [app] in *.
  pose proof (flagged_below_threshold high_beta_assets) as Hlt.
  destruct (dropna (map flag high_beta_assets)) as [|x scores] eqn:Es; cbn [details
    divergence_detected divergence_score].
  - rewrite Hd. repeat split; try congruence; try discriminate.
  - rewrite Hd.
    assert (Hneg : Qmean (x :: scores) < 0).
    { apply Qmean_negative; [discriminate|].
      eapply List.Forall_impl; [|exact Hlt]. cbn. intros a Ha. Lqa.lra. }
    repeat split; try congruence; try discriminate; intros; Lqa.lra.
Qed.

End DivergenceScore.

(** C8.  With a negative divergence threshold, [detect_divergence] sets the
    score to the arithmetic mean of the relative strengths of the flagged
    assets, which are the assets the specification flags, in dictionary
    order; the score is at most 0 whenever divergence is detected; and when
    no asset is flagged, nothing is detected and the score is 0. *)
Theorem detect_divergence_score
    (ALERT_THRESHOLDS : config.AlertThresholds) (CALC_PARAMS : config.CalcParams)
    (high_beta_assets : list (string * divergence.Frame)) (benchmark : divergence.Frame)
    (window : option nat) :
  (config.DIVERGENCE_THRESHOLD ALERT_THRESHOLDS < 0)%Q ->
  let w :=
    match window with
    | None => config.RELATIVE_STRENGTH_WINDOW CALC_PARAMS
    | Some w => w
    end in
  let result :=
    divergence.detect_divergence ALERT_THRESHOLDS CALC_PARAMS high_beta_assets benchmark
      window in
  let flagged := map divergence.detail_relative_strength (divergence.details result) in
  (benchmark <> [] ->
   flagged = numeric.dropna
               (map (divergence.flagged_strength ALERT_THRESHOLDS CALC_PARAMS benchmark w)
                    high_beta_assets))
  /\ (flagged <> [] ->
      divergence.divergence_detected result = true
      /\ divergence.divergence_score result
         = (numeric.Qsum flagged / inject_Z (Z.of_nat (length flagged)))%Q)
  /\ (flagged = [] ->
      divergence.divergence_detected result = false
      /\ divergence.divergence_score result = 0%Q)
  /\ (divergence.divergence_detected result = true ->
      (divergence.divergence_score result <= 0)%Q).
Proof.
  intros Hth w result flagged.
  assert (E : result
              = divergence.detect_divergence ALERT_THRESHOLDS CALC_PARAMS high_beta_assets
                  benchmark (Some w)).
  { subst result w. destruct window; reflexivity. }
  subst flagged. rewrite E.
  exact (detect_divergence_score_at ALERT_THRESHOLDS CALC_PARAMS benchmark w
           high_beta_assets Hth).
Qed.

Lemma detect_divergence_score_witness :
  let th := {| config.SPREAD_CRITICAL := 3 # 2; config.SPREAD_DANGER := 2;
               config.SPREAD_WARNING := 5 # 2;
               config.DIVERGENCE_THRESHOLD := - (5 # 100) |} in
  let params := {| config.VOL_WINDOW := 20; config.RELATIVE_STRENGTH_WINDOW := 20 |} in
  let asset := [(1%Z, 100%Q); (2%Z, 110%Q); (3%Z, 99%Q); (4%Z, 120%Q); (6%Z, 60%Q)] in
  let bench := [(1%Z, 10%Q); (3%Z, 11%Q); (4%Z, 12%Q); (5%Z, 12%Q); (6%Z, 12%Q)] in
  let result :=
    divergence.detect_divergence th params [("X"%string, asset); ("Y"%string, [])] bench
      (Some 1%nat) in
  divergence.divergence_detected result = true
  /\ (divergence.divergence_score result <= 0)%Q.
Proof.
  intros th params asset bench result.
  destruct (detect_divergence_score th params
              [("X"%string, asset); ("Y"%string, [])] bench (Some 1%nat))
    as (_ & Hdet & _ & Hneg).
  - reflexivity.
  - assert (Hd : divergence.divergence_detected result = true).
    { apply Hdet. vm_compute. discriminate. }
    split; [exact Hd | exact (Hneg Hd)].
Defined.

Section Beta.
Import numeric config divergence.
Local Open Scope Q_scope.

Lemma unique_In (d : Z) (idx : list Z) : In d (unique idx) -> In d idx.
Proof.
  induction idx as [|e idx IH]; cbn; [tauto|].
  intros [H|H]; [auto|]. apply filter_In in H. right. apply IH. tauto.
Qed.

Lemma intersection_In (d : Z) (left right : list Z) :
  In d (intersection left right) -> In d left /\ In d right.
Proof.
  unfold intersection. intros H. apply unique_In, filter_In in H.
  destruct H as [Hl Hr]. split; [exact Hl|].
  unfold isin in Hr. apply existsb_exists in Hr. destruct Hr as (e & He & E).
  apply Z.eqb_eq in E. now subst.
Qed.

(** In a frame without repeated dates a date selects one row. *)
Lemma loc_one_row (df : Frame) (d : Z) :
  List.NoDup (index df) -> In d (index df) ->
  exists q, Close (List.filter (fun row => Z.eqb (fst row) d) df) = [q]
            /\ In q (Close df).
Proof.
  induction df as [|[e q] df IH]; cbn; [tauto|].
  intros Hnd Hin. apply List.NoDup_cons_iff in Hnd. destruct Hnd as [Hnotin Hnd].
  destruct (Z.eqb_spec e d) as [->|Hne].
  - exists q. split; [|auto]. cbn. f_equal.
    replace (List.filter (fun row => Z.eqb (fst row) d) df) with (@nil (Z * Q));
      [reflexivity|].
    symmetry. clear IH Hin Hnd. induction df as [|[e' q'] df IH]; [reflexivity|].
    cbn in *. destruct (Z.eqb_spec e' d) as [->|_]; [tauto|]. apply IH. tauto.
  - destruct Hin as [H|H]; [congruence|].
    destruct (IH Hnd H) as (q' & E & Hq'). exists q'. auto.
Qed.

Lemma loc_well_formed (df : Frame) (labels : list Z) :
  well_formed df -> (forall d, In d labels -> In d (index df)) ->
  length (loc df labels) = length labels
  /\ Forall (fun q => ~ q == 0) (loc df labels).
Proof.
  intros [Hnd Hnz] Hin. unfold loc.
  induction labels as [|d labels IH]; cbn; [split; [reflexivity | constructor]|].
  destruct (loc_one_row df d Hnd (Hin d (or_introl eq_refl))) as (q & E & Hq).
  rewrite E. cbn.
  destruct IH as [IHl IHf]; [intros e He; apply Hin; now right|].
  split; [now rewrite IHl|].
  constructor; [|exact IHf].
  rewrite List.Forall_forall in Hnz. now apply Hnz.
Qed.

Lemma Forall_skipn {A : Type} (P : A -> Prop) (n : nat) (l : list A) :
  Forall P l -> Forall P (skipn n l).
Proof.
  intros H. revert n. induction H as [|a l Ha Hl IH]; intros [|n]; cbn;
    try constructor; auto.
Qed.

(** The daily returns of nonzero closes: NaN in front, numbers after. *)
Lemma pct_change_defined (x : Q) (s : list Q) :
  Forall (fun q => ~ q == 0) (x :: s) ->
  exists returns,
    pct_change 1 (x :: s) = None :: map Some returns /\ length returns = length s.
Proof.
  intros Hnz. unfold pct_change, shift.
  cbn [length repeat app firstn combine map]. cbn [fdiv fsub].
  rewrite <- (List.combine_firstn_l s (Some x :: map Some s)).
  change (Some x :: map Some s) with (map Some (x :: s)).
  revert x Hnz. induction s as [|y s IH]; intros x Hnz.
  - exists []. auto.
  - inversion Hnz as [|? ? Hx Hrest]; subst.
    destruct (IH y Hrest) as (returns & E & Hlen).
    injection E as E.
    exists (y / x - 1 :: returns). cbn [map combine length]. split; [|now rewrite Hlen].
    f_equal. f_equal.
    + cbn. destruct (Qeq_bool x 0) eqn:Ex; [|reflexivity].
      apply Qeq_bool_iff in Ex. contradiction.
    + exact E.
Qed.

Lemma dropna_map_Some {A : Type} (l : list A) : dropna (map Some l) = l.
Proof. induction l as [|x l IH]; cbn; [reflexivity | now rewrite IH]. Qed.

Lemma both_combine_Some (l1 l2 : list Q) :
  dropna (map both (combine (map Some l1) (map Some l2))) = combine l1 l2.
Proof.
  revert l2. induction l1 as [|x l1 IH]; intros [|y l2]; cbn; try reflexivity.
  now rewrite IH.
Qed.

(** On well-formed frames beta is a number, never NaN. *)
Lemma calculate_beta_defined (asset benchmark : Frame) (window : nat) :
  well_formed asset -> well_formed benchmark ->
  exists b, calculate_beta asset benchmark window = Some b.
Proof.
  intros Ha Hb. unfold calculate_beta.
  destruct asset as [|ra asset']; [eauto|].
  destruct benchmark as [|rb bench']; [eauto|].
  set (asset := ra :: asset') in *. set (benchmark := rb :: bench') in *.
  set (common_idx := intersection (index asset) (index benchmark)).
  destruct (loc_well_formed asset common_idx Ha) as [Hla Hza].
  { intros d Hd. now apply intersection_In in Hd. }
  destruct (loc_well_formed benchmark common_idx Hb) as [Hlb Hzb].
  { intros d Hd. now apply intersection_In in Hd. }
  destruct (length (tail window (loc asset common_idx)) <? 20)%nat eqn:E20; [eauto|].
  apply Nat.ltb_ge in E20.
  assert (Hlen : length (tail window (loc benchmark common_idx))
                 = length (tail window (loc asset common_idx))).
  { unfold tail. rewrite !length_skipn. lia. }
  assert (Hta : Forall (fun q => ~ q == 0) (tail window (loc asset common_idx)))
    by (apply Forall_skipn; exact Hza).
  assert (Htb : Forall (fun q => ~ q == 0) (tail window (loc benchmark common_idx)))
    by (apply Forall_skipn; exact Hzb).
  destruct (tail window (loc asset common_idx)) as [|xa sa]; [cbn in E20; lia|].
  destruct (tail window (loc benchmark common_idx)) as [|xb sb]; [cbn in Hlen; lia|].
  destruct (pct_change_defined xa sa Hta) as (ar & Ear & Har).
  destruct (pct_change_defined xb sb Htb) as (br & Ebr & Hbr).
  rewrite Ear, Ebr. cbn [combine map both dropna].
  rewrite both_combine_Some, dropna_map_Some.
  cbn [length] in E20, Hlen.
  unfold var, cov. rewrite length_combine.
  replace (length br <? 2)%nat with false by (symmetry; apply Nat.ltb_ge; lia).
  replace (Nat.min (length ar) (length br) <? 2)%nat with false
    by (symmetry; apply Nat.ltb_ge; lia).
  cbn [feq0 fdiv].
  destruct (Qeq_bool _ 0); eauto.
Qed.

End Beta.

Section BetaInDoublePrecision.
Import PrimFloat binary64.
Local Open Scope float_scope.

Variable sum : list float -> float.
Variable sum_cov : list float -> float.
Variable dot : list float -> list float -> float.

Lemma intersection_nil_r (left : list Z) : divergence.intersection left [] = [].
Proof.
  unfold divergence.intersection.
  replace (List.filter (fun d => divergence.isin d []) left) with (@nil Z); [reflexivity|].
  induction left as [|d left IH]; [reflexivity | exact IH].
Qed.

Lemma loc_nil (labels : list Z) : loc [] labels = [].
Proof. induction labels as [|d labels IH]; [reflexivity | exact IH]. Qed.

(** Rows are aligned only when both frames have rows. *)
Lemma aligned_rows_nonempty (asset benchmark : Frame) (window : nat) :
  (0 < length (numeric.tail window
                 (loc asset (divergence.intersection (index asset) (index benchmark)))))%nat ->
  asset <> [] /\ benchmark <> [].
Proof.
  intros H. split; intros ->; revert H.
  - rewrite loc_nil. unfold numeric.tail. rewrite skipn_nil. cbn. lia.
  - cbn [index map]. rewrite intersection_nil_r.
    unfold loc. cbn [flat_map]. unfold numeric.tail. rewrite skipn_nil. cbn. lia.
Qed.

(** [pct_change] pairs every close with the one before it. *)
Lemma returns_of_shift (s : list float) :
  forall x : float,
    map (fun '(x, prev) =>
           match prev with
           | Some p => x / p - 1
           | None => nan
           end)
        (combine s (map Some (x :: s)))
    = daily_returns (x :: s).
Proof.
  induction s as [|y s IH]; intros x; [reflexivity|].
  cbn [map combine daily_returns]. f_equal. exact (IH y).
Qed.

Lemma pct_change_daily_returns (x : float) (s : list float) :
  pct_change (x :: s) = nan :: daily_returns (x :: s).
Proof.
  unfold pct_change, numeric.shift.
  cbn [length repeat app firstn combine map]. f_equal.
  rewrite <- (List.combine_firstn_l s (Some x :: map Some s)).
  exact (returns_of_shift s x).
Qed.

Lemma dropna_pct_change (s : list float) :
  dropna (pct_change s) = dropna (daily_returns s).
Proof.
  destruct s as [|x s]; [reflexivity|].
  rewrite pct_change_daily_returns. reflexivity.
Qed.

Lemma paired_pct_change (a b : list float) :
  List.filter both_defined (combine (pct_change a) (pct_change b))
  = List.filter both_defined (combine (daily_returns a) (daily_returns b)).
Proof.
  destruct a as [|x a]; [reflexivity|].
  destruct b as [|y b].
  - cbn [pct_change combine map]. now rewrite !combine_nil.
  - rewrite !pct_change_daily_returns. reflexivity.
Qed.

(** The two reductions are the sample statistics. *)
Lemma var_sample_variance (xs : list float) : var sum xs = sample_variance sum xs.
Proof.
  unfold var, sample_variance, mean.
  destruct (Nat.leb_spec (length xs) 1) as [H|H];
    destruct (Nat.ltb_spec (length xs) 2) as [H'|H']; try lia; reflexivity.
Qed.

Lemma cov_sample_covariance (pairs : list (float * float)) :
  cov sum_cov dot pairs = sample_covariance sum_cov dot (map fst pairs) (map snd pairs).
Proof.
  destruct pairs as [|p pairs]; [reflexivity|].
  unfold cov, sample_covariance, mean. rewrite !length_map. reflexivity.
Qed.


End BetaInDoublePrecision.

Section BetaOnConcreteFrames.
Import PrimFloat binary64.
Local Open Scope float_scope.



End BetaOnConcreteFrames.

Section RetreatPattern.
Import numeric config divergence.
Local Open Scope Q_scope.

Lemma high_beta_underperforming_test_spec (asset : Metric) :
  high_beta_underperforming_test asset = true <->
  exists b, beta asset = Some b /\ 6 # 5 < b /\ relative_strength_5d asset < -5.
Proof.
  unfold high_beta_underperforming_test, fgtb.
  rewrite andb_true_iff, Qltb_lt.
  destruct (beta asset) as [b|].
  - rewrite Qltb_lt. split.
    + intros [H1 H2]. exists b. auto.
    + intros (b' & E & H1 & H2). injection E as ->. auto.
  - split; [intros [H _]; discriminate | intros (b & E & _); discriminate].
Qed.

Lemma low_beta_stable_test_spec (asset : Metric) :
  low_beta_stable_test asset = true <->
  exists b, beta asset = Some b /\ b < 1 /\ -2 < relative_strength_5d asset.
Proof.
  unfold low_beta_stable_test, fltb.
  rewrite andb_true_iff, Qltb_lt.
  destruct (beta asset) as [b|].
  - rewrite Qltb_lt. split.
    + intros [H1 H2]. exists b. auto.
    + intros (b' & E & H1 & H2). injection E as ->. auto.
  - split; [intros [H _]; discriminate | intros (b & E & _); discriminate].
Qed.

(** No asset passes both tests, so the [elif] of the loop loses nothing. *)
Lemma tests_exclusive (asset : Metric) :
  high_beta_underperforming_test asset = true -> low_beta_stable_test asset = false.
Proof.
  intros H. apply high_beta_underperforming_test_spec in H.
  destruct H as (b & E & Hb & _).
  destruct (low_beta_stable_test asset) eqn:L; [|reflexivity].
  apply low_beta_stable_test_spec in L. destruct L as (b' & E' & Hb' & _).
  rewrite E in E'. injection E' as <-. Lqa.lra.
Qed.

(** The second loop counts the entries passing each test and lists the
    tickers of the high-beta underperformers in the order met. *)
Lemma retreat_fold (l : list Metric) :
  forall (h lo : nat) (order : list string),
    fold_left retreat_step l (h, lo, order)
    = ((h + length (List.filter high_beta_underperforming_test l))%nat,
       (lo + length (List.filter low_beta_stable_test l))%nat,
       order ++ map ticker (List.filter high_beta_underperforming_test l)).
Proof.
  induction l as [|a l IH]; intros h lo order; cbn [fold_left List.filter].
  - cbn. now rewrite !Nat.add_0_r, app_nil_r.
  - unfold retreat_step at 2.
    destruct (high_beta_underperforming_test a) eqn:Ha.
    + rewrite (tests_exclusive a Ha), IH. cbn [length map].
      rewrite <- app_assoc. cbn [app].
      replace (S h + length (List.filter high_beta_underperforming_test l))%nat
        with (h + S (length (List.filter high_beta_underperforming_test l)))%nat by lia.
      reflexivity.
    + destruct (low_beta_stable_test a); rewrite IH; cbn [length]; [|reflexivity].
      replace (S lo + length (List.filter low_beta_stable_test l))%nat
        with (lo + S (length (List.filter low_beta_stable_test l)))%nat by lia.
      reflexivity.
Qed.

Lemma insert_desc_perm (x : Metric) (l : list Metric) :
  Permutation (x :: l) (insert_desc x l).
Proof.
  induction l as [|y l IH]; cbn; [reflexivity|].
  destruct (key_lt (beta x) (beta y)); [|reflexivity].
  rewrite perm_swap. now apply perm_skip.
Qed.

Lemma sort_desc_perm (l : list Metric) : Permutation l (sort_desc l).
Proof.
  induction l as [|x l IH]; cbn; [reflexivity|].
  rewrite <- insert_desc_perm. now apply perm_skip.
Qed.

Lemma filter_length_perm {A : Type} (f : A -> bool) (l l' : list A) :
  Permutation l l' -> length (List.filter f l) = length (List.filter f l').
Proof.
  induction 1 as [|x l l' _ IH|x y l|l l' l'' _ IH1 _ IH2]; cbn.
  - reflexivity.
  - destruct (f x); cbn; congruence.
  - destruct (f x); destruct (f y); reflexivity.
  - congruence.
Qed.

Lemma filter_perm {A : Type} (f : A -> bool) (l l' : list A) :
  Permutation l l' -> Permutation (List.filter f l) (List.filter f l').
Proof.
  induction 1 as [|x l l' _ IH|x y l|l l' l'' _ IH1 _ IH2]; cbn.
  - reflexivity.
  - destruct (f x); [now apply perm_skip | exact IH].
  - destruct (f x); destruct (f y); try reflexivity. apply perm_swap.
  - etransitivity; eassumption.
Qed.

Lemma beta_ge_trans (a b c : Metric) : beta_ge a b -> beta_ge b c -> beta_ge a c.
Proof.
  intros (x & y & Ex & Ey & H1) (y' & z & Ey' & Ez & H2).
  rewrite Ey in Ey'. injection Ey' as <-.
  exists x, z. repeat split; [assumption..|]. Lqa.lra.
Qed.

Lemma key_lt_true (a b : Metric) :
  key_lt (beta a) (beta b) = true -> beta_ge b a.
Proof.
  unfold key_lt. destruct (beta a) as [x|] eqn:Ea; [|discriminate].
  destruct (beta b) as [y|] eqn:Eb; [|discriminate].
  intros H. apply Qltb_lt in H. exists y, x. repeat split; [assumption..|]. Lqa.lra.
Qed.

Lemma key_lt_false (a b : Metric) :
  beta a <> None -> beta b <> None ->
  key_lt (beta a) (beta b) = false -> beta_ge a b.
Proof.
  unfold key_lt. destruct (beta a) as [x|] eqn:Ea; [|congruence].
  destruct (beta b) as [y|] eqn:Eb; [|congruence].
  intros _ _ H. apply Qltb_ge in H. exists x, y. auto.
Qed.

Lemma insert_desc_sorted (x : Metric) (l : list Metric) :
  beta x <> None -> Forall (fun m => beta m <> None) l ->
  Sorted beta_ge l -> Sorted beta_ge (insert_desc x l).
Proof.
  intros Hx Hl Hs. induction Hs as [|y l Hs IH Hhd]; cbn.
  - repeat constructor.
  - apply List.Forall_cons_iff in Hl. destruct Hl as [Hy Hl].
    destruct (key_lt (beta x) (beta y)) eqn:E.
    + constructor; [apply IH; exact Hl|].
      destruct l as [|z l]; cbn.
      * constructor. now apply key_lt_true.
      * destruct (key_lt (beta x) (beta z)).
        -- constructor. inversion Hhd; assumption.
        -- constructor. now apply key_lt_true.
    + constructor; [constructor; assumption|].
      constructor. now apply key_lt_false.
Qed.

Lemma insert_desc_defined (x : Metric) (l : list Metric) :
  beta x <> None -> Forall (fun m => beta m <> None) l ->
  Forall (fun m => beta m <> None) (insert_desc x l).
Proof.
  intros Hx Hl.
  eapply Permutation_Forall; [apply insert_desc_perm|].
  constructor; assumption.
Qed.

Lemma sort_desc_sorted (l : list Metric) :
  Forall (fun m => beta m <> None) l ->
  Forall (fun m => beta m <> None) (sort_desc l) /\ Sorted beta_ge (sort_desc l).
Proof.
  induction 1 as [|x l Hx Hl [IHd IHs]]; cbn.
  - split; constructor.
  - split; [now apply insert_desc_defined | now apply insert_desc_sorted].
Qed.

Lemma StronglySorted_filter {A : Type} (R : A -> A -> Prop) (f : A -> bool) (l : list A) :
  StronglySorted R l -> StronglySorted R (List.filter f l).
Proof.
  induction 1 as [|x l Hs IH Hx]; cbn; [constructor|].
  destruct (f x); [|exact IH].
  constructor; [exact IH|].
  rewrite List.Forall_forall in *. intros y Hy. apply Hx.
  apply filter_In in Hy. tauto.
Qed.

(** [retreat_pattern] in terms of the counts and of the sorted list. *)
Lemma retreat_pattern_unfold (metrics : list Metric) :
  let hb := length (List.filter high_beta_underperforming_test metrics) in
  let lb := length (List.filter low_beta_stable_test metrics) in
  retreat_pattern metrics
  = if (2 <=? hb)%nat && (1 <=? lb)%nat then
      {| retreat_detected := true;
         retreat_order :=
           map ticker (List.filter high_beta_underperforming_test (sort_desc metrics));
         severity := if (3 <=? hb)%nat then "high" else "medium" |}
    else
      {| retreat_detected := false;
         retreat_order :=
           map ticker (List.filter high_beta_underperforming_test (sort_desc metrics));
         severity := "none" |}.
Proof.
  intros hb lb. unfold retreat_pattern. rewrite retreat_fold. cbn [Nat.add app].
  rewrite <- (filter_length_perm _ _ _ (sort_desc_perm metrics)).
  rewrite <- (filter_length_perm _ _ _ (sort_desc_perm metrics)).
  reflexivity.
Qed.

(** The spec's scenario: A (beta 1.5, strength -8), B (beta 0.7, strength
    0), C (beta 1.8, strength -10) gives a detected retreat of medium
    severity with C ahead of A. *)
Example retreat_pattern_scenario :
  retreat_pattern
    [ {| ticker := "A"; beta := Some (3 # 2); relative_strength_5d := -8 |};
      {| ticker := "B"; beta := Some (7 # 10); relative_strength_5d := 0 |};
      {| ticker := "C"; beta := Some (9 # 5); relative_strength_5d := -10 |} ]
  = {| retreat_detected := true; retreat_order := ["C"; "A"]%string;
       severity := "medium" |}.
Proof. reflexivity. Qed.

End RetreatPattern.

Section LiquidityRetreat.
Import numeric config divergence.
Local Open Scope Q_scope.

Variable CALC_PARAMS : CalcParams.
Variable benchmark : Frame.

Let metric := asset_metric CALC_PARAMS benchmark.

(** An asset without data is skipped by the first loop; with its neutral
    beta of 1.0 it would pass neither test anyway. *)
Lemma metric_of_empty (name : string) :
  high_beta_underperforming_test (metric (name, [])) = false
  /\ low_beta_stable_test (metric (name, [])) = false.
Proof. split; reflexivity. Qed.

Lemma filter_skip_empty (test : Metric -> bool) (assets : list (string * Frame)) :
  (forall name, test (metric (name, [])) = false) ->
  List.filter test (map metric (List.filter nonempty assets))
  = List.filter test (map metric assets).
Proof.
  intros Hempty. induction assets as [|[name df] assets IH]; [reflexivity|].
  cbn [List.filter map]. unfold nonempty at 1. cbn [snd].
  destruct df as [|row df].
  - rewrite Hempty. exact IH.
  - cbn [map List.filter]. now rewrite IH.
Qed.

Lemma defined_skip_empty (assets : list (string * Frame)) :
  Forall (fun m => beta m <> None) (map metric assets) ->
  Forall (fun m => beta m <> None) (map metric (List.filter nonempty assets)).
Proof.
  rewrite !List.Forall_forall. intros H m Hm. apply H.
  apply in_map_iff in Hm. destruct Hm as (item & <- & Hin).
  apply filter_In in Hin. apply in_map. tauto.
Qed.


End LiquidityRetreat.



Section HistoricalVolatility.
Import numeric config volatility.
Local Open Scope R_scope.

Variable CALC_PARAMS : CalcParams.

Lemma shift_length {A : Type} (k : nat) (s : list A) : length (shift k s) = length s.
Proof.
  unfold shift. rewrite length_firstn, length_app, repeat_length, length_map. lia.
Qed.

Lemma nth_error_seq_lt (start n i : nat) :
  (i < n)%nat -> nth_error (seq start n) i = Some (start + i)%nat.
Proof.
  revert start i. induction n as [|n IH]; intros start i Hi; [lia|].
  destruct i as [|i]; cbn.
  - f_equal. lia.
  - rewrite IH by lia. f_equal. lia.
Qed.

Lemma log_returns_cons (x : R) (close : list R) :
  log_returns (x :: close)
  = None :: map (fun '(y, prev) => log_return y prev)
                (combine close (map Some (x :: close))).
Proof.
  unfold log_returns, shift. cbn [length repeat app firstn combine map].
  unfold log_return at 1. f_equal. f_equal.
  symmetry. apply (List.combine_firstn_l close (Some x :: map Some close)).
Qed.

Lemma log_returns_length (close : list R) : length (log_returns close) = length close.
Proof.
  unfold log_returns. rewrite length_map, length_combine, shift_length. lia.
Qed.

Lemma rolling_std_length (w : nat) (s : list (option R)) :
  length (rolling_std w s) = length s.
Proof. unfold rolling_std. now rewrite length_map, length_seq. Qed.

Lemma rolling_std_nth (w : nat) (s : list (option R)) (i : nat) :
  (i < length s)%nat ->
  nth_error (rolling_std w s) i
  = Some (if (w <=? i + 1)%nat then
            match all_defined (firstn w (skipn (i + 1 - w) s)) with
            | Some xs => sample_std xs
            | None => None
            end
          else None).
Proof.
  intros Hi. unfold rolling_std.
  rewrite nth_error_map, nth_error_seq_lt by exact Hi. reflexivity.
Qed.

Lemma sample_std_nonneg (xs : list R) (sd : R) : sample_std xs = Some sd -> 0 <= sd.
Proof.
  unfold sample_std. destruct (length xs <? 2)%nat; [discriminate|].
  intros H. injection H as <-. apply sqrt_pos.
Qed.

(** A window that starts on the leading NaN has no standard deviation. *)
Lemma rolling_std_head_undefined (w : nat) (s : list (option R)) (i : nat) :
  (1 <= w)%nat -> (i < w)%nat -> (i < length (None :: s))%nat ->
  nth_error (rolling_std w (None :: s)) i = Some None.
Proof.
  intros Hw Hi Hlen. rewrite rolling_std_nth by exact Hlen.
  destruct (w <=? i + 1)%nat eqn:E; [|reflexivity].
  apply Nat.leb_le in E.
  replace (i + 1 - w)%nat with 0%nat by lia.
  destruct w as [|w]; [lia|]. reflexivity.
Qed.

Lemma all_defined_Some (s : list (option R)) :
  Forall (fun v => v <> None) s ->
  exists xs, all_defined s = Some xs /\ length xs = length s.
Proof.
  induction 1 as [|v s Hv Hs (xs & E & Hlen)]; cbn.
  - exists []. auto.
  - destruct v as [x|]; [|congruence].
    rewrite E. exists (x :: xs). cbn. auto.
Qed.

Lemma log_return_defined (x p : R) : 0 < x -> 0 < p -> log_return x (Some p) <> None.
Proof.
  intros Hx Hp. unfold log_return.
  destruct (Req_EM_T p 0) as [E|_]; [Lra.lra|].
  destruct (Rlt_dec 0 (x / p)) as [_|Hn]; [discriminate|].
  exfalso. apply Hn. apply Rdiv_lt_0_compat; assumption.
Qed.

Lemma log_returns_tail_defined (close : list R) :
  forall x, Forall (fun p => 0 < p) (x :: close) ->
  Forall (fun v => v <> None)
         (map (fun '(y, prev) => log_return y prev)
              (combine close (map Some (x :: close)))).
Proof.
  induction close as [|y close IH]; intros x Hpos; cbn; [constructor|].
  inversion Hpos as [|? ? Hx Hrest]; subst.
  inversion Hrest as [|? ? Hy _]; subst.
  constructor; [now apply log_return_defined|].
  apply (IH y). exact Hrest.
Qed.

Lemma Forall_firstn {A : Type} (P : A -> Prop) (n : nat) (l : list A) :
  Forall P l -> Forall P (firstn n l).
Proof.
  intros H. revert n. induction H as [|a l Ha Hl IH]; intros [|n]; cbn;
    constructor; auto.
Qed.

Lemma hv_nth (close : list R) (w i : nat) :
  close <> [] ->
  nth_error (calculate_historical_volatility CALC_PARAMS close (Some w)) i
  = option_map (fun v => match v with
                         | Some sd => Some (sd * sqrt 252 * 100)
                         | None => None
                         end)
               (nth_error (rolling_std w (log_returns close)) i).
Proof.
  intros Hne. unfold calculate_historical_volatility.
  destruct close as [|x close]; [congruence|].
  apply nth_error_map.
Qed.

Lemma hv_length (close : list R) (window : option nat) :
  length (calculate_historical_volatility CALC_PARAMS close window) = length close.
Proof.
  unfold calculate_historical_volatility. destruct close as [|x close]; [reflexivity|].
  now rewrite length_map, rolling_std_length, log_returns_length.
Qed.

(** C6.  For a window of at least 1, the historical volatility has one
    entry per price; it is undefined at each of the first [w] positions;
    a defined entry sits at position [w] or later, so needs at least [w+1]
    prices, is non-negative, and is the sample standard deviation of the
    [w] log returns ending there, times [sqrt 252], times 100.  With a window of at least 2 and positive
    prices the entry at position [w] is defined as soon as there are
    [w+1] prices. *)
Theorem historical_volatility_defined (prices : list R) (window : option nat) :
  let w :=
    match window with
    | None => VOL_WINDOW CALC_PARAMS
    | Some w => w
    end in
  let hv := calculate_historical_volatility CALC_PARAMS prices window in
  (1 <= w)%nat ->
  length hv = length prices
  /\ (forall i, (i < w)%nat -> (i < length prices)%nat -> nth_error hv i = Some None)
  /\ (forall i v, nth_error hv i = Some (Some v) ->
                  (w <= i)%nat /\ (w + 1 <= length prices)%nat /\ 0 <= v
                  /\ exists xs sd,
                       all_defined (firstn w (skipn (i + 1 - w) (log_returns prices)))
                         = Some xs
                       /\ sample_std xs = Some sd
                       /\ v = sd * sqrt 252 * 100)
  /\ ((2 <= w)%nat -> (w + 1 <= length prices)%nat -> Forall (fun p => 0 < p) prices ->
      exists v, nth_error hv w = Some (Some v)).
Proof.
  intros w hv Hw.
  assert (Ehv : hv = calculate_historical_volatility CALC_PARAMS prices (Some w)).
  { subst hv w. destruct window; reflexivity. }
  clearbody hv w. subst hv.
  split; [apply hv_length|].
  assert (Hhead : forall i, (i < w)%nat -> (i < length prices)%nat ->
            nth_error (calculate_historical_volatility CALC_PARAMS prices (Some w)) i
            = Some None).
  { intros i Hi Hlen.
    destruct prices as [|x close]; [cbn in Hlen; lia|].
    rewrite hv_nth by discriminate. rewrite log_returns_cons.
    rewrite rolling_std_head_undefined; [reflexivity | exact Hw | exact Hi |].
    rewrite <- log_returns_cons, log_returns_length. exact Hlen. }
  split; [exact Hhead|]. split.
  - intros i v Hv.
    assert (Hlen : (i < length prices)%nat).
    { rewrite <- (hv_length prices (Some w)). apply nth_error_Some. congruence. }
    assert (Hi : (w <= i)%nat).
    { destruct (le_lt_dec w i) as [H|H]; [exact H|].
      rewrite (Hhead i H Hlen) in Hv. discriminate. }
    split; [exact Hi|]. split; [lia|].
    destruct prices as [|x close]; [cbn in Hlen; lia|].
    rewrite hv_nth in Hv by discriminate.
    rewrite rolling_std_nth in Hv by (rewrite log_returns_length; exact Hlen).
    cbn [option_map] in Hv.
    destruct (w <=? i + 1)%nat; [|discriminate].
    destruct (all_defined _) as [xs|] eqn:Exs; [|discriminate].
    destruct (sample_std xs) as [sd|] eqn:Esd; [|discriminate].
    injection Hv as <-.
    split; [|exists xs, sd; auto].
    apply sample_std_nonneg in Esd.
    apply Rmult_le_pos; [apply Rmult_le_pos; [exact Esd | apply sqrt_pos] | Lra.lra].
  - intros Hw2 Hlen Hpos.
    destruct prices as [|x close]; [cbn in Hlen; lia|].
    rewrite hv_nth by discriminate.
    rewrite rolling_std_nth by (rewrite log_returns_length; cbn in *; lia).
    replace (w <=? w + 1)%nat with true by (symmetry; apply Nat.leb_le; lia).
    replace (w + 1 - w)%nat with 1%nat by lia.
    rewrite log_returns_cons. cbn [skipn]. rewrite skipn_O.
    destruct (all_defined_Some
                (firstn w (map (fun '(y, prev) => log_return y prev)
                               (combine close (map Some (x :: close))))))
      as (xs & Exs & Hxs).
    { apply Forall_firstn. apply log_returns_tail_defined. exact Hpos. }
    rewrite Exs. cbn [option_map].
    rewrite length_firstn, length_map, length_combine, length_map in Hxs.
    cbn [length] in Hxs, Hlen.
    unfold sample_std.
    replace (length xs <? 2)%nat with false by (symmetry; apply Nat.ltb_ge; lia).
    eexists. reflexivity.
Qed.

(** C10.  On fewer than 20 rows [is_volatility_spiking] answers false
    whatever the prices; the comparison of the 5-entry mean with 1.5 times
    the 20-entry mean is only made from 20 rows on. *)
Theorem is_volatility_spiking_short (prices : list R) :
  let hv := calculate_historical_volatility CALC_PARAMS prices None in
  ((length prices < 20)%nat -> is_volatility_spiking CALC_PARAMS prices = false)
  /\ ((20 <= length prices)%nat ->
      is_volatility_spiking CALC_PARAMS prices
      = match mean (tail 5 hv), mean (tail 20 hv) with
        | Some recent_5d, Some recent_20d => Rltb (recent_20d * (3 / 2)) recent_5d
        | _, _ => false
        end).
Proof.
  intros hv. unfold is_volatility_spiking. fold hv.
  subst hv. rewrite hv_length. split; intros H.
  - replace (length prices <? 20)%nat with true by (symmetry; apply Nat.ltb_lt; lia).
    reflexivity.
  - replace (length prices <? 20)%nat with false by (symmetry; apply Nat.ltb_ge; lia).
    reflexivity.
Qed.

End HistoricalVolatility.

Lemma historical_volatility_defined_witness :
  let params := {| config.VOL_WINDOW := 20; config.RELATIVE_STRENGTH_WINDOW := 20 |} in
  let prices := [100; 101; 99; 102]%R in
  let hv := volatility.calculate_historical_volatility params prices (Some 2%nat) in
  nth_error hv 0 = Some None /\ nth_error hv 1 = Some None
  /\ exists v, nth_error hv 2 = Some (Some v) /\ (0 <= v)%R.
Proof.
  intros params prices hv.
  destruct (historical_volatility_defined params prices (Some 2%nat))
    as (_ & Hhead & Hnonneg & Hex).
  - cbn. lia.
  - split; [apply Hhead; cbn; lia|].
    split; [apply Hhead; cbn; lia|].
    destruct Hex as [v Hv].
    + cbn. lia.
    + cbn. lia.
    + repeat constructor; Lra.lra.
    + exists v. split; [exact Hv|]. apply (Hnonneg 2%nat v Hv).
Defined.

Lemma is_volatility_spiking_short_witness :
  volatility.is_volatility_spiking
    {| config.VOL_WINDOW := 20; config.RELATIVE_STRENGTH_WINDOW := 20 |}
    (map INR (seq 100 19))
  = false.
Proof.
  refine (proj1 (is_volatility_spiking_short _ (map INR (seq 100 19))) _).
  cbn. lia.
Defined.

(** * Further properties of the modules *)

Section SortedBy.
Import numeric.

Context {A : Type} (key : A -> nat).

Lemma insert_by_length (x : A) (l : list A) :
  length (insert_by key x l) = S (length l).
Proof.
  induction l as [|y l IH]; [reflexivity|].
  cbn [insert_by]. destruct (key y <? key x)%nat; cbn [length];
    [now rewrite IH | reflexivity].
Qed.

Lemma sorted_by_length (l : list A) : length (sorted_by key l) = length l.
Proof.
  induction l as [|x l IH]; [reflexivity|].
  change (sorted_by key (x :: l)) with (insert_by key x (sorted_by key l)).
  now rewrite insert_by_length, IH.
Qed.

(** The head of the sorted list is the first entry of smallest key. *)
Lemma sorted_by_head (l : list A) (x : A) (rest : list A) :
  sorted_by key l = x :: rest ->
  exists l1 l2,
    l = l1 ++ x :: l2
    /\ (forall a, In a l1 -> (key x < key a)%nat)
    /\ (forall a, In a l2 -> (key x <= key a)%nat).
Proof.
  revert x rest. induction l as [|a l IH]; intros x rest H; [discriminate|].
  change (sorted_by key (a :: l)) with (insert_by key a (sorted_by key l)) in H.
  destruct (sorted_by key l) as [|y r] eqn:E.
  - pose proof (sorted_by_length l) as Hlen. rewrite E in Hlen.
    destruct l; [|discriminate]. cbn [insert_by] in H. injection H as <- <-.
    exists [], []. cbn. repeat split; intros ? [].
  - destruct (IH y r eq_refl) as (l1 & l2 & -> & H1 & H2).
    cbn [insert_by] in H. destruct (key y <? key a)%nat eqn:Ek.
    + injection H as <- <-. apply Nat.ltb_lt in Ek.
      exists (a :: l1), l2. split; [reflexivity|]. split; [|exact H2].
      intros b [<-|Hb]; [exact Ek | now apply H1].
    + injection H as <- <-. apply Nat.ltb_ge in Ek.
      exists [], (l1 ++ y :: l2). split; [reflexivity|]. split; [intros ? []|].
      intros b Hb. apply in_app_or in Hb. destruct Hb as [Hb|[<-|Hb]].
      * apply H1 in Hb. lia.
      * exact Ek.
      * apply H2 in Hb. lia.
Qed.

End SortedBy.

Section AlertObjects.
Import numeric alerts.
Local Open Scope Q_scope.

(** X2.  [get_highest_priority_alert] returns, for a non-empty list, the
    first alert of the highest severity present: every alert before it is
    strictly less severe and every alert after it at most as severe.  For
    the empty list it returns a SAFE alert. *)
Theorem get_highest_priority_alert_most_severe (alerts : list Alert) :
  (alerts = [] -> a_level (get_highest_priority_alert alerts) = SAFE)
  /\ (alerts <> [] ->
      exists before after,
        alerts = before ++ get_highest_priority_alert alerts :: after
        /\ (forall a, In a before ->
              (severity (a_level a)
               < severity (a_level (get_highest_priority_alert alerts)))%nat)
        /\ (forall a, In a after ->
              (severity (a_level a)
               <= severity (a_level (get_highest_priority_alert alerts)))%nat)).
Proof.
  split; [intros ->; reflexivity|].
  intros Hne. unfold get_highest_priority_alert.
  destruct alerts as [|a0 alerts0] eqn:Ea; [congruence|]. rewrite <- Ea.
  destruct (sorted_by (fun x => LEVEL_PRIORITY (a_level x)) alerts) as [|first rest] eqn:E.
  - pose proof (sorted_by_length (fun x => LEVEL_PRIORITY (a_level x)) alerts) as Hlen.
    rewrite E, Ea in Hlen. discriminate.
  - destruct (sorted_by_head _ _ _ _ E) as (l1 & l2 & Hl & H1 & H2).
    exists l1, l2. split; [exact Hl|].
    unfold severity. split; intros a Ha.
    + apply H1 in Ha. destruct (a_level a), (a_level first); cbn in *; lia.
    + apply H2 in Ha. destruct (a_level a), (a_level first); cbn in *; lia.
Qed.

Lemma get_highest_priority_alert_most_severe_witness :
  let warn := create_alert "warning" "利差" "" None 0 0 in
  let daily := create_alert "danger" "波动率" "" None 0 0 in
  let diverging := create_alert "danger" "背离" "" None 0 0 in
  exists before after,
    [warn; daily; diverging]
    = before ++ get_highest_priority_alert [warn; daily; diverging] :: after
    /\ get_highest_priority_alert [warn; daily; diverging] = daily.
Proof.
  intros warn daily diverging.
  destruct (get_highest_priority_alert_most_severe [warn; daily; diverging])
    as [_ H].
  destruct H as (before & after & Hsplit & _); [discriminate|].
  exists before, after. split; [exact Hsplit | reflexivity].
Defined.

End AlertObjects.

Section CompositeRiskFactors.
Import numeric alerts.
Local Open Scope Q_scope.

Ltac split_bands :=
  repeat match goal with
         | |- context [if ?b then _ else _] => destruct b
         end.

(** X3.  The composite score is a multiple of ten between 0 and 100, there
    are at most three factors, and the list of factors is empty exactly
    when the score is 0. *)
Theorem composite_risk_score_factors
    (spread_stats vol_stats : gmap string Q) (divergence_result : gmap string pyval) :
  let result := calculate_composite_risk_score spread_stats vol_stats divergence_result in
  (exists k : nat, (k <= 10)%nat /\ fst result == inject_Z (Z.of_nat (10 * k)))
  /\ (length (snd result) <= 3)%nat
  /\ (snd result = [] <-> fst result == 0).
Proof.
  intros result. subst result.
  unfold calculate_composite_risk_score, score_spread, score_volatility, score_divergence.
  split_bands; cbn [fst snd app length].
  all: split;
    [ first [ exists 0%nat; split; [lia | reflexivity]
            | exists 1%nat; split; [lia | reflexivity]
            | exists 2%nat; split; [lia | reflexivity]
            | exists 3%nat; split; [lia | reflexivity]
            | exists 4%nat; split; [lia | reflexivity]
            | exists 5%nat; split; [lia | reflexivity]
            | exists 6%nat; split; [lia | reflexivity]
            | exists 7%nat; split; [lia | reflexivity]
            | exists 8%nat; split; [lia | reflexivity]
            | exists 9%nat; split; [lia | reflexivity]
            | exists 10%nat; split; [lia | reflexivity] ]
    | split; [lia|] ].
  all: split; intros H; try reflexivity; try discriminate H;
    exfalso; vm_compute in H; discriminate H.
Qed.

End CompositeRiskFactors.

Section DivergenceAlert.
Import numeric config alerts divergence.
Local Open Scope Q_scope.

Variable ALERT_THRESHOLDS : AlertThresholds.
Variable CALC_PARAMS : CalcParams.

Lemma as_dict_detected (r : DivergenceResult) :
  get (as_dict r) "divergence_detected" (PBool false) = PBool (divergence_detected r).
Proof. unfold get, as_dict. now rewrite lookup_insert_eq. Qed.

Lemma as_dict_score (r : DivergenceResult) :
  get (as_dict r) "divergence_score" (PFloat 0) = PFloat (divergence_score r).
Proof.
  unfold get, as_dict. rewrite lookup_insert_ne by discriminate.
  now rewrite lookup_insert_eq.
Qed.

Lemma detect_divergence_window (assets : list (string * Frame)) (benchmark : Frame)
    (window : option nat) :
  detect_divergence ALERT_THRESHOLDS CALC_PARAMS assets benchmark window
  = detect_divergence ALERT_THRESHOLDS CALC_PARAMS assets benchmark
      (Some match window with
            | None => RELATIVE_STRENGTH_WINDOW CALC_PARAMS
            | Some w => w
            end).
Proof. destruct window; reflexivity. Qed.

(** X4.  On the result of [detect_divergence], with a negative divergence
    threshold, the level of [get_divergence_alert] and the divergence
    points of [calculate_composite_risk_score] agree: critical goes with
    30 points, danger with 20, warning with 10 and safe with none. *)
Theorem divergence_alert_matches_band (assets : list (string * Frame))
    (benchmark : Frame) (window : option nat) :
  DIVERGENCE_THRESHOLD ALERT_THRESHOLDS < 0 ->
  let results := as_dict (detect_divergence ALERT_THRESHOLDS CALC_PARAMS assets
                            benchmark window) in
  let level := fst (get_divergence_alert results) in
  let points :=
    divergence_band (truthy (get results "divergence_detected" (PBool false)))
                    (py_abs (get results "divergence_score" (PFloat 0))) in
  (level = "critical"%string <-> points = 30)
  /\ (level = "danger"%string <-> points = 20)
  /\ (level = "warning"%string <-> points = 10)
  /\ (level = "safe"%string <-> points = 0).
Proof.
  intros Hth results level points. subst level points results.
  rewrite detect_divergence_window.
  set (w := match window with Some w => w | None => _ end).
  destruct (detect_divergence_score_at ALERT_THRESHOLDS CALC_PARAMS benchmark w assets Hth)
    as (_ & _ & _ & Hneg).
  set (r := detect_divergence ALERT_THRESHOLDS CALC_PARAMS assets benchmark (Some w)) in *.
  unfold get_divergence_alert. rewrite as_dict_detected, as_dict_score.
  cbn [truthy py_num py_abs]. unfold divergence_band.
  destruct (divergence_detected r); cbn [negb fst].
  2:{ repeat split; intros H; try discriminate H; reflexivity. }
  specialize (Hneg eq_refl).
  assert (Habs : Qabs (divergence_score r) == - divergence_score r)
    by (apply Qabs_neg; exact Hneg).
  destruct (Qltb (divergence_score r) (-20)) eqn:E20.
  - apply Qltb_lt in E20.
    replace (Qltb 20 (Qabs (divergence_score r))) with true
      by (symmetry; apply Qltb_lt; rewrite Habs; Lqa.lra).
    cbn [fst]. repeat split; intros H; try discriminate H; reflexivity.
  - apply Qltb_ge in E20.
    replace (Qltb 20 (Qabs (divergence_score r))) with false
      by (symmetry; apply Qltb_ge; rewrite Habs; Lqa.lra).
    destruct (Qltb (divergence_score r) (-10)) eqn:E10.
    + apply Qltb_lt in E10.
      replace (Qltb 10 (Qabs (divergence_score r))) with true
        by (symmetry; apply Qltb_lt; rewrite Habs; Lqa.lra).
      cbn [fst]. repeat split; intros H; try discriminate H; reflexivity.
    + apply Qltb_ge in E10.
      replace (Qltb 10 (Qabs (divergence_score r))) with false
        by (symmetry; apply Qltb_ge; rewrite Habs; Lqa.lra).
      cbn [fst]. repeat split; intros H; try discriminate H; reflexivity.
Qed.

(** When no asset is flagged the loop leaves the default result. *)
Lemma detect_divergence_unflagged (assets : list (string * Frame)) (benchmark : Frame)
    (w : nat) :
  Forall (fun item =>
            flagged_strength ALERT_THRESHOLDS CALC_PARAMS benchmark w item = None) assets ->
  let r := detect_divergence ALERT_THRESHOLDS CALC_PARAMS assets benchmark (Some w) in
  divergence_detected r = false /\ divergence_score r = 0 /\ details r = [].
Proof.
  intros Hall r. subst r.
  destruct (list_eq_nil_dec benchmark) as [->|Hb]; [now rewrite detect_divergence_empty|].
  rewrite (detect_divergence_nonempty _ _ _ _ _ Hb). cbv zeta.
  destruct (detect_fold_flag ALERT_THRESHOLDS CALC_PARAMS benchmark w assets [] [] ∅ eq_refl)
    as (d & p & Hfold & Hd).
  rewrite Hfold.
  assert (Hnone : dropna (map (flagged_strength ALERT_THRESHOLDS CALC_PARAMS benchmark w)
                              assets) = []).
  { clear Hfold Hd. induction Hall as [|item l Hi Hl IH]; [reflexivity|].
    cbn. rewrite Hi. exact IH. }
  rewrite Hnone in *. cbn [app] in *.
  destruct d; [|discriminate]. repeat split.
Qed.

(** X5.  In a falling market, a benchmark return over the window below -2,
    [detect_divergence] flags nothing, whatever the assets do. *)
Theorem falling_benchmark_no_divergence (assets : list (string * Frame))
    (benchmark : Frame) (window : option nat) (bench_return : Q) :
  let w :=
    match window with
    | None => RELATIVE_STRENGTH_WINDOW CALC_PARAMS
    | Some w => w
    end in
  window_return (Close benchmark) w = Some bench_return ->
  bench_return < -2 ->
  let r := detect_divergence ALERT_THRESHOLDS CALC_PARAMS assets benchmark window in
  divergence_detected r = false /\ divergence_score r = 0 /\ details r = [].
Proof.
  intros w Hret Hlt r. subst r. rewrite detect_divergence_window. fold w.
  apply detect_divergence_unflagged.
  apply List.Forall_forall. intros item _.
  unfold flagged_strength. destruct (snd item); [reflexivity|].
  destruct (iloc_last _); [|reflexivity].
  rewrite Hret. cbn [fgeb].
  replace (Qleb (-2) bench_return) with false
    by (symmetry; apply Qleb_gt; exact Hlt).
  reflexivity.
Qed.

Lemma shift_short {A : Type} (w : nat) (s : list A) :
  (length s <= w)%nat -> Forall (fun v => v = None) (shift w s).
Proof.
  unfold shift. generalize (length s) as n, (map Some s) as l.
  intros n l. revert n. induction w as [|w IH]; intros [|n] Hn; cbn;
    try constructor; try lia; [reflexivity|].
  apply IH. lia.
Qed.

Lemma pct_change_short (w : nat) (s : list Q) :
  (length s <= w)%nat -> Forall (fun v => v = None) (pct_change w s).
Proof.
  intros Hlen. unfold pct_change.
  pose proof (shift_short w s Hlen) as Hnone. revert Hnone.
  generalize (shift w s). intros sh Hnone. revert s Hlen.
  induction Hnone as [|p sh Hp Hsh IH]; intros [|x s] Hlen; cbn; try constructor.
  - now rewrite Hp.
  - apply IH. cbn in Hlen. lia.
Qed.

Lemma relative_strength_short (asset benchmark : Frame) (w : nat) :
  (length (loc asset (intersection (index asset) (index benchmark))) <= w)%nat ->
  Forall (fun v => v = None)
         (calculate_relative_strength CALC_PARAMS asset benchmark (Some w)).
Proof.
  intros Hlen. unfold calculate_relative_strength.
  destruct asset as [|ra asset']; [constructor|].
  destruct benchmark as [|rb bench']; [constructor|].
  pose proof (pct_change_short w _ Hlen) as Hnone.
  revert Hnone. generalize (pct_change w (loc (ra :: asset')
    (intersection (index (ra :: asset')) (index (rb :: bench'))))).
  generalize (pct_change w (loc (rb :: bench')
    (intersection (index (ra :: asset')) (index (rb :: bench'))))).
  intros lb la Hnone. revert lb.
  induction Hnone as [|a la Ha Hla IH]; intros [|b lb]; cbn; constructor.
  - now rewrite Ha.
  - apply IH.
Qed.

(** X6.  With a negative divergence threshold, an asset that shares at most
    [window] dates with the benchmark has no relative strength yet and is
    not flagged; when this holds of every asset nothing is detected. *)
Theorem short_history_no_divergence (assets : list (string * Frame))
    (benchmark : Frame) (window : option nat) :
  let w :=
    match window with
    | None => RELATIVE_STRENGTH_WINDOW CALC_PARAMS
    | Some w => w
    end in
  DIVERGENCE_THRESHOLD ALERT_THRESHOLDS < 0 ->
  Forall (fun item =>
            (length (loc (snd item) (intersection (index (snd item)) (index benchmark)))
             <= w)%nat) assets ->
  let r := detect_divergence ALERT_THRESHOLDS CALC_PARAMS assets benchmark window in
  divergence_detected r = false /\ divergence_score r = 0 /\ details r = [].
Proof.
  intros w Hth Hshort r. subst r. rewrite detect_divergence_window. fold w.
  apply detect_divergence_unflagged.
  eapply List.Forall_impl; [|exact Hshort]. cbn beta.
  intros [name df] Hlen. cbn [snd] in Hlen.
  unfold flagged_strength. cbn [snd].
  destruct df as [|row df]; [reflexivity|].
  destruct (iloc_last _) as [last|] eqn:E; [|reflexivity].
  pose proof (relative_strength_short (row :: df) benchmark w Hlen) as Hnone.
  rewrite List.Forall_forall in Hnone.
  rewrite (Hnone last (iloc_last_In _ _ E)). cbn [current_or_zero].
  replace (Qltb 0 (DIVERGENCE_THRESHOLD ALERT_THRESHOLDS * 100)) with false
    by (symmetry; apply Qltb_ge; Lqa.lra).
  now rewrite andb_false_r.
Qed.

End DivergenceAlert.

Lemma divergence_alert_matches_band_witness :
  let th := {| config.SPREAD_CRITICAL := 3 # 2; config.SPREAD_DANGER := 2;
               config.SPREAD_WARNING := 5 # 2;
               config.DIVERGENCE_THRESHOLD := - (5 # 100) |} in
  let params := {| config.VOL_WINDOW := 20; config.RELATIVE_STRENGTH_WINDOW := 20 |} in
  let asset := [(1%Z, 100%Q); (2%Z, 110%Q); (3%Z, 99%Q); (4%Z, 120%Q); (6%Z, 60%Q)] in
  let bench := [(1%Z, 10%Q); (3%Z, 11%Q); (4%Z, 12%Q); (5%Z, 12%Q); (6%Z, 12%Q)] in
  let results :=
    divergence.as_dict
      (divergence.detect_divergence th params [("X"%string, asset)] bench (Some 1%nat)) in
  fst (divergence.get_divergence_alert results) = "critical"%string
  /\ alerts.divergence_band
       (alerts.truthy (alerts.get results "divergence_detected" (alerts.PBool false)))
       (alerts.py_abs (alerts.get results "divergence_score" (alerts.PFloat 0)))
     = 30%Q.
Proof.
  intros th params asset bench results.
  destruct (divergence_alert_matches_band th params [("X"%string, asset)] bench
              (Some 1%nat)) as (Hcritical & _).
  - reflexivity.
  - assert (Hlevel : fst (divergence.get_divergence_alert results) = "critical"%string)
      by (vm_compute; reflexivity).
    split; [exact Hlevel | exact (proj1 Hcritical Hlevel)].
Defined.

Lemma falling_benchmark_no_divergence_witness :
  let th := {| config.SPREAD_CRITICAL := 3 # 2; config.SPREAD_DANGER := 2;
               config.SPREAD_WARNING := 5 # 2;
               config.DIVERGENCE_THRESHOLD := - (5 # 100) |} in
  let params := {| config.VOL_WINDOW := 20; config.RELATIVE_STRENGTH_WINDOW := 20 |} in
  let asset := [(1%Z, 100%Q); (2%Z, 90%Q); (3%Z, 60%Q)] in
  let bench := [(1%Z, 100%Q); (2%Z, 95%Q); (3%Z, 90%Q)] in
  divergence.divergence_detected
    (divergence.detect_divergence th params [("X"%string, asset)] bench (Some 2%nat))
  = false.
Proof.
  intros th params asset bench.
  refine (proj1 (falling_benchmark_no_divergence th params [("X"%string, asset)] bench
                   (Some 2%nat) _ _ _)).
  - vm_compute. reflexivity.
  - vm_compute. reflexivity.
Defined.

Lemma short_history_no_divergence_witness :
  let th := {| config.SPREAD_CRITICAL := 3 # 2; config.SPREAD_DANGER := 2;
               config.SPREAD_WARNING := 5 # 2;
               config.DIVERGENCE_THRESHOLD := - (5 # 100) |} in
  let params := {| config.VOL_WINDOW := 20; config.RELATIVE_STRENGTH_WINDOW := 20 |} in
  let asset := [(2%Z, 100%Q); (3%Z, 50%Q)] in
  let bench := [(1%Z, 100%Q); (2%Z, 100%Q); (3%Z, 100%Q)] in
  divergence.divergence_detected
    (divergence.detect_divergence th params [("X"%string, asset)] bench (Some 2%nat))
  = false.
Proof.
  intros th params asset bench.
  refine (proj1 (short_history_no_divergence th params [("X"%string, asset)] bench
                   (Some 2%nat) _ _)).
  - reflexivity.
  - repeat constructor.
Defined.

Section RetreatNeedsAssets.
Import numeric config divergence.
Local Open Scope Q_scope.

Lemma exclusive_filters_length {A : Type} (f g : A -> bool) (l : list A) :
  (forall x, f x = true -> g x = false) ->
  (length (List.filter f l) + length (List.filter g l) <= length l)%nat.
Proof.
  intros Hex. induction l as [|x l IH]; cbn; [lia|].
  destruct (f x) eqn:Ef.
  - rewrite (Hex x Ef). cbn. lia.
  - destruct (g x); cbn; lia.
Qed.

(** X8.  [analyze_liquidity_retreat] needs at least three assets with data
    to detect a retreat and at least four to call it high; with an empty
    benchmark it detects nothing; and the severity is 'none' exactly when
    nothing is detected. *)
Theorem retreat_needs_assets (CALC_PARAMS : CalcParams)
    (assets : list (string * Frame)) (benchmark : Frame) :
  let result := analyze_liquidity_retreat CALC_PARAMS assets benchmark in
  let with_data := length (List.filter nonempty assets) in
  (retreat_detected result = true -> (3 <= with_data)%nat)
  /\ (severity result = "high"%string -> (4 <= with_data)%nat)
  /\ (benchmark = [] -> retreat_detected result = false)
  /\ (retreat_detected result = false <-> severity result = "none"%string).
Proof.
  intros result with_data. subst result with_data.
  unfold analyze_liquidity_retreat. rewrite retreat_pattern_unfold. cbv zeta.
  set (metrics := map (asset_metric CALC_PARAMS benchmark) (List.filter nonempty assets)).
  pose proof (exclusive_filters_length high_beta_underperforming_test
                low_beta_stable_test metrics tests_exclusive) as Hsum.
  assert (Hlen : length metrics = length (List.filter nonempty assets))
    by (subst metrics; apply length_map).
  rewrite Hlen in Hsum.
  assert (Hempty : benchmark = [] ->
            length (List.filter high_beta_underperforming_test metrics) = 0%nat).
  { intros ->. subst metrics. clear Hsum Hlen.
    induction (List.filter nonempty assets) as [|[name df] l IH]; [reflexivity|].
    cbn [map List.filter].
    replace (high_beta_underperforming_test (asset_metric CALC_PARAMS [] (name, df)))
      with false; [exact IH|].
    unfold high_beta_underperforming_test, asset_metric. cbn [beta].
    destruct df; reflexivity. }
  destruct (Nat.leb_spec 2 (length (List.filter high_beta_underperforming_test metrics)))
    as [E2|E2];
    destruct (Nat.leb_spec 1 (length (List.filter low_beta_stable_test metrics)))
      as [E1|E1];
    cbn [andb retreat_detected severity].
  - split; [intros _; lia|]. split.
    + destruct (Nat.leb_spec 3 (length (List.filter high_beta_underperforming_test metrics)));
        [intros _; lia | discriminate].
    + split; [intros Hb; apply Hempty in Hb; lia|].
      destruct (Nat.leb_spec 3 (length (List.filter high_beta_underperforming_test metrics)));
        split; discriminate.
  - repeat split; try discriminate; reflexivity.
  - repeat split; try discriminate; reflexivity.
  - repeat split; try discriminate; reflexivity.
Qed.

End RetreatNeedsAssets.

Section SpreadStatisticsBounds.
Import numeric spread.
Local Open Scope Q_scope.

Lemma Qminimum_spec (l : list Q) :
  forall x, Qminimum x l <= x
            /\ (forall y, In y l -> Qminimum x l <= y)
            /\ In (Qminimum x l) (x :: l).
Proof.
  unfold Qminimum. induction l as [|y l IH]; intros x; cbn [fold_left].
  - split; [Lqa.lra|]. split; [intros ? []|]. now left.
  - destruct (Qleb y x) eqn:E; cbv iota.
    + apply Qleb_le in E. destruct (IH y) as (H1 & H2 & H3).
      set (m := fold_left _ l y) in *.
      split; [Lqa.lra|]. split.
      * intros z [<-|Hz]; [exact H1 | now apply H2].
      * right. exact H3.
    + apply Qleb_gt in E. destruct (IH x) as (H1 & H2 & H3).
      set (m := fold_left _ l x) in *.
      split; [exact H1|]. split.
      * intros z [<-|Hz]; [Lqa.lra | now apply H2].
      * destruct H3 as [H3|H3]; [now left | right; now right].
Qed.

Lemma Qmaximum_spec (l : list Q) :
  forall x, x <= Qmaximum x l
            /\ (forall y, In y l -> y <= Qmaximum x l)
            /\ In (Qmaximum x l) (x :: l).
Proof.
  unfold Qmaximum. induction l as [|y l IH]; intros x; cbn [fold_left].
  - split; [Lqa.lra|]. split; [intros ? []|]. now left.
  - destruct (Qleb x y) eqn:E; cbv iota.
    + apply Qleb_le in E. destruct (IH y) as (H1 & H2 & H3).
      set (m := fold_left _ l y) in *.
      split; [Lqa.lra|]. split.
      * intros z [<-|Hz]; [exact H1 | now apply H2].
      * right. exact H3.
    + apply Qleb_gt in E. destruct (IH x) as (H1 & H2 & H3).
      set (m := fold_left _ l x) in *.
      split; [exact H1|]. split.
      * intros z [<-|Hz]; [Lqa.lra | now apply H2].
      * destruct H3 as [H3|H3]; [now left | right; now right].
Qed.

(** X10.  On a spread column with at least one observation, the ['min']
    and ['max'] entries are observations, they bound every observation,
    and the ['current'] entry, the latest observation, lies between
    them. *)
Theorem spread_statistics_bounds (column : list float) :
  dropna column <> [] ->
  exists current lo hi,
    get_spread_statistics (Some column) !! "current" = Some current
    /\ get_spread_statistics (Some column) !! "min" = Some lo
    /\ get_spread_statistics (Some column) !! "max" = Some hi
    /\ iloc_last (dropna column) = Some current
    /\ In lo (dropna column) /\ In hi (dropna column)
    /\ (forall x, In x (dropna column) -> lo <= x <= hi)
    /\ lo <= current <= hi.
Proof.
  intros Hne.
  destruct (iloc_last_nonempty _ Hne) as [last Hlast].
  pose proof (iloc_last_In _ _ Hlast) as Hin.
  destruct (Qminimum_spec (dropna column) last) as (Hmin1 & Hmin2 & Hmin3).
  destruct (Qmaximum_spec (dropna column) last) as (Hmax1 & Hmax2 & Hmax3).
  assert (Hbounds : forall x, In x (dropna column) ->
            Qminimum last (dropna column) <= x <= Qmaximum last (dropna column)).
  { intros x Hx. split; [now apply Hmin2 | now apply Hmax2]. }
  exists last, (Qminimum last (dropna column)), (Qmaximum last (dropna column)).
  assert (Hlook : forall key v,
            (<["current" := last]>
             (<["mean" := Qsum (dropna column)
                          / inject_Z (Z.of_nat (length (dropna column)))]>
             (<["min" := Qminimum last (dropna column)]>
             (<["max" := Qmaximum last (dropna column)]>
             (<["percentile" :=
                  inject_Z (Z.of_nat (count_less (dropna column) last))
                  / inject_Z (Z.of_nat (length (dropna column))) * 100]>
             (<["change_1d" := change (dropna column) last 2 1]>
             (<["change_5d" := change (dropna column) last 5 5]>
             (<["change_20d" := change (dropna column) last 20 20]> ∅)))))))
             : gmap string Q) !! key = v ->
            get_spread_statistics (Some column) !! key = v).
  { intros key v H. unfold get_spread_statistics.
    destruct column as [|c column]; [cbn in Hne; congruence|].
    rewrite Hlast. exact H. }
  split; [apply Hlook; now rewrite lookup_insert_eq|].
  split; [apply Hlook; do 2 (rewrite lookup_insert_ne by discriminate);
          now rewrite lookup_insert_eq|].
  split; [apply Hlook; do 3 (rewrite lookup_insert_ne by discriminate);
          now rewrite lookup_insert_eq|].
  split; [exact Hlast|].
  split; [destruct Hmin3 as [<-|H]; assumption|].
  split; [destruct Hmax3 as [<-|H]; assumption|].
  split; [exact Hbounds|].
  split; assumption.
Qed.

Lemma spread_statistics_bounds_witness :
  exists lo hi,
    get_spread_statistics (Some [Some 3; None; Some (5 # 2); Some 2]) !! "min" = Some lo
    /\ get_spread_statistics (Some [Some 3; None; Some (5 # 2); Some 2]) !! "max" = Some hi
    /\ lo <= hi.
Proof.
  destruct (spread_statistics_bounds [Some 3; None; Some (5 # 2); Some 2])
    as (current & lo & hi & _ & Hlo & Hhi & _ & _ & _ & _ & Hc).
  - cbn. discriminate.
  - exists lo, hi. split; [exact Hlo|]. split; [exact Hhi|]. Lqa.lra.
Defined.

Lemma filter_length_lt {A : Type} (f : A -> bool) (l : list A) (x : A) :
  In x l -> f x = false -> (length (List.filter f l) < length l)%nat.
Proof.
  intros Hin Hf. induction l as [|y l IH]; [destruct Hin|].
  cbn. destruct Hin as [->|Hin].
  - rewrite Hf. pose proof (filter_length_le f l). lia.
  - specialize (IH Hin). destruct (f y); cbn; lia.
Qed.

(** X11.  The spread percentile never reaches 100: the latest observation
    is not below itself, so with [n] observations the percentile is at
    most [(n-1)/n * 100]; and the statistics are empty exactly when the
    column has no observation. *)
Theorem spread_percentile_below_100 (column : list float) :
  (dropna column = [] -> get_spread_statistics (Some column) = ∅)
  /\ (dropna column <> [] ->
      exists percentile,
        get_spread_statistics (Some column) !! "percentile" = Some percentile
        /\ percentile * inject_Z (Z.of_nat (length (dropna column)))
           <= inject_Z (Z.of_nat (length (dropna column) - 1)) * 100
        /\ percentile < 100).
Proof.
  split.
  - intros Hnil. unfold get_spread_statistics.
    destruct column as [|c column]; [reflexivity|]. now rewrite Hnil.
  - intros Hne.
    destruct (iloc_last_nonempty _ Hne) as [last Hlast].
    eexists. split.
    { unfold get_spread_statistics.
      destruct column as [|c column]; [cbn in Hne; congruence|].
      rewrite Hlast. unfold _to_scalar.
      repeat (rewrite lookup_insert_ne by discriminate).
      rewrite lookup_insert_eq. reflexivity. }
    assert (Hcount : (count_less (dropna column) last < length (dropna column))%nat).
    { unfold count_less. apply (filter_length_lt _ _ last).
      - apply iloc_last_In. exact Hlast.
      - apply Qltb_ge. Lqa.lra. }
    set (k := count_less (dropna column) last) in *.
    set (n := length (dropna column)) in *.
    assert (Hn : 0 < inject_Z (Z.of_nat n)) by (apply inject_nat_pos; lia).
    assert (Hk : inject_Z (Z.of_nat k) <= inject_Z (Z.of_nat (n - 1)))
      by (rewrite <- Zle_Qle; lia).
    assert (Hk' : inject_Z (Z.of_nat (n - 1)) < inject_Z (Z.of_nat n))
      by (rewrite <- Zlt_Qlt; lia).
    assert (Hq : inject_Z (Z.of_nat k) / inject_Z (Z.of_nat n) * inject_Z (Z.of_nat n)
                 == inject_Z (Z.of_nat k)).
    { field. intros H0. rewrite H0 in Hn. Lqa.lra. }
    split.
    + assert (Hq' : inject_Z (Z.of_nat k) / inject_Z (Z.of_nat n) * 100
                      * inject_Z (Z.of_nat n)
                    == inject_Z (Z.of_nat k) * 100)
        by (field; intros H0; rewrite H0 in Hn; Lqa.lra).
      rewrite Hq'. Lqa.lra.
    + assert (Hlt : inject_Z (Z.of_nat k) / inject_Z (Z.of_nat n) < 1).
      { apply Qlt_shift_div_r; [exact Hn | Lqa.lra]. }
      Lqa.lra.
Qed.

Lemma spread_percentile_below_100_witness :
  exists percentile,
    get_spread_statistics (Some [Some 1; Some 2; None; Some 3]) !! "percentile"
    = Some percentile /\ percentile < 100.
Proof.
  destruct (spread_percentile_below_100 [Some 1; Some 2; None; Some 3]) as [_ H].
  destruct H as (percentile & Hp & _ & Hlt); [cbn; discriminate|].
  exists percentile. split; [exact Hp | exact Hlt].
Defined.

End SpreadStatisticsBounds.

Section AccelerationOnShortSeries.
Import numeric spread.
Local Open Scope Q_scope.

Lemma iloc_last_tail {A : Type} (k : nat) (l : list A) :
  (1 <= k)%nat -> iloc_last (tail k l) = iloc_last l.
Proof.
  intros Hk. unfold iloc_last, tail. rewrite length_skipn, nth_error_skipn.
  destruct (Nat.eq_dec (length l) 0%nat) as [E|E].
  - destruct l; [reflexivity | discriminate].
  - f_equal. lia.
Qed.

Lemma velocity_short (column : list float) (window : nat) :
  (length (dropna column) < window)%nat ->
  calculate_spread_velocity (Some column) window = Some 0.
Proof.
  intros Hlen. unfold calculate_spread_velocity.
  destruct column as [|c column]; [reflexivity|].
  now replace (length (dropna (c :: column)) <? window)%nat with true
    by (symmetry; apply Nat.ltb_lt; exact Hlen).
Qed.

(** X13.  [is_spread_accelerating] on short series: with fewer than 5
    observations it answers false; with 5 to 19 observations the 20-day
    velocity is 0, and it answers true exactly when the latest observation
    is below the one four places before it. *)
Theorem spread_acceleration_short (column : list float) :
  let spread := dropna column in
  ((length spread < 5)%nat -> is_spread_accelerating (Some column) = Some false)
  /\ ((5 <= length spread < 20)%nat ->
      exists last first,
        iloc_last spread = Some last
        /\ nth_error spread (length spread - 5) = Some first
        /\ is_spread_accelerating (Some column) = Some (Qltb last first)).
Proof.
  intros spread. subst spread. split.
  - intros Hlen. unfold is_spread_accelerating.
    rewrite (velocity_short column 5) by exact Hlen.
    rewrite (velocity_short column 20) by lia. reflexivity.
  - intros [H5 H20]. unfold is_spread_accelerating.
    rewrite (velocity_short column 20) by exact H20.
    unfold calculate_spread_velocity.
    destruct column as [|c column]; [cbn in H5; lia|].
    replace (length (dropna (c :: column)) <? 5)%nat with false
      by (symmetry; apply Nat.ltb_ge; exact H5).
    rewrite iloc_last_tail by lia.
    unfold tail at 1. rewrite nth_error_skipn, Nat.add_0_r.
    assert (Hne : dropna (c :: column) <> []).
    { intros E. rewrite E in H5. cbn in H5. lia. }
    destruct (iloc_last_nonempty _ Hne) as [last Hlast]. rewrite Hlast.
    destruct (nth_error (dropna (c :: column)) (length (dropna (c :: column)) - 5))
      as [first|] eqn:Efirst.
    2:{ apply nth_error_None in Efirst. lia. }
    exists last, first. split; [reflexivity|]. split; [reflexivity|].
    f_equal.
    assert (Hv : Qltb ((last - first) / inject_Z (Z.of_nat 5)) 0 = Qltb last first).
    { destruct (Qltb last first) eqn:E.
      - apply Qltb_lt in E. apply Qltb_lt.
        apply Qlt_shift_div_r; [reflexivity | Lqa.lra].
      - apply Qltb_ge in E. apply Qltb_ge.
        apply Qle_shift_div_l; [reflexivity | Lqa.lra]. }
    rewrite Hv. apply andb_diag.
Qed.

Lemma spread_acceleration_short_witness :
  is_spread_accelerating (Some [Some 3; Some 3; None; Some 2]) = Some false.
Proof.
  refine (proj1 (spread_acceleration_short [Some 3; Some 3; None; Some 2]) _).
  cbn. lia.
Defined.

End AccelerationOnShortSeries.

Lemma retreat_needs_assets_witness :
  divergence.retreat_detected
    (divergence.analyze_liquidity_retreat
       {| config.VOL_WINDOW := 20; config.RELATIVE_STRENGTH_WINDOW := 20 |}
       [("A"%string, [(1%Z, 100%Q); (2%Z, 80%Q)]); ("B"%string, [(1%Z, 100%Q)])] [])
  = false.
Proof.
  refine (proj1 (proj2 (proj2 (retreat_needs_assets _ _ [])) ) eq_refl).
Defined.

Section VolatilityPercentile.
Import numeric config alerts volatility.
Local Open Scope Q_scope.

Variable WINDOW_PARAMS : WindowParams.

Lemma Rltb_irrefl (x : R) : Rltb x x = false.
Proof. unfold Rltb. destruct (Rlt_dec x x) as [H|_]; [|reflexivity]. Lra.lra. Qed.

(** The percentile as a ratio of two counts: either there is no
    observation in the lookback and the answer is 50, or it is [k/n * 100]
    with [n] the number of observations and [k < n]. *)
Lemma volatility_percentile_ratio (volatility : list (option R)) (lookback : option nat) :
  let lb :=
    match lookback with
    | None => VOL_LOOKBACK WINDOW_PARAMS
    | Some n => n
    end in
  let lb := if (length volatility <? lb)%nat then length volatility else lb in
  let n := length (dropna (tail lb volatility)) in
  (n = 0%nat /\ get_volatility_percentile WINDOW_PARAMS volatility lookback = 50)
  \/ (exists k : nat,
        (k < n)%nat
        /\ get_volatility_percentile WINDOW_PARAMS volatility lookback
           = inject_Z (Z.of_nat k) / inject_Z (Z.of_nat n) * 100).
Proof.
  intros lb0 lb n. unfold get_volatility_percentile. fold lb0. fold lb.
  destruct lb as [|m] eqn:Elb.
  - left. split; [|reflexivity]. subst n. unfold tail. rewrite Nat.sub_0_r.
    now rewrite skipn_all.
  - destruct (iloc_last (dropna (tail (S m) volatility))) as [current|] eqn:E.
    + right. eexists. split; [|reflexivity].
      subst n. apply (filter_length_lt _ _ current).
      * apply iloc_last_In. exact E.
      * apply Rltb_irrefl.
    + left. split; [|reflexivity]. subst n. apply iloc_last_nil in E. now rewrite E.
Qed.

(** X14.  [get_volatility_percentile] lies in [0,100) and is 50 when the
    lookback holds no observation; and with fewer than 20 observations in
    the lookback it stays below 95, so the extreme-volatility band of the
    composite score (30 points) cannot be reached. *)
Theorem volatility_percentile_bounds (volatility : list (option R))
    (lookback : option nat) :
  let lb :=
    match lookback with
    | None => VOL_LOOKBACK WINDOW_PARAMS
    | Some n => n
    end in
  let lb := if (length volatility <? lb)%nat then length volatility else lb in
  let n := length (dropna (tail lb volatility)) in
  let percentile := get_volatility_percentile WINDOW_PARAMS volatility lookback in
  0 <= percentile < 100
  /\ (n = 0%nat -> percentile = 50)
  /\ ((n < 20)%nat -> percentile < 95 /\ volatility_band percentile <= 20).
Proof.
  intros lb0 lb n percentile.
  destruct (volatility_percentile_ratio volatility lookback) as [[Hn Hp]|(k & Hk & Hp)];
    fold lb0 in Hn, Hp || fold lb0 in Hk, Hp.
  - fold lb in Hn, Hp. fold n in Hn. fold percentile in Hp.
    rewrite Hp. split; [split; discriminate || reflexivity|].
    split; [reflexivity|]. intros _. split; reflexivity || discriminate.
  - fold lb in Hk, Hp. fold n in Hk, Hp. fold percentile in Hp.
    assert (Hpos : 0 < inject_Z (Z.of_nat n)) by (apply inject_nat_pos; lia).
    assert (Hk0 : 0 <= inject_Z (Z.of_nat k))
      by (change 0 with (inject_Z 0); rewrite <- Zle_Qle; lia).
    assert (Hk1 : inject_Z (Z.of_nat k) + 1 <= inject_Z (Z.of_nat n)).
    { change 1 with (inject_Z 1). rewrite <- inject_Z_plus, <- Zle_Qle. lia. }
    assert (Hq0 : 0 <= inject_Z (Z.of_nat k) / inject_Z (Z.of_nat n))
      by (apply Qle_shift_div_l; [exact Hpos | Lqa.lra]).
    assert (Hq1 : inject_Z (Z.of_nat k) / inject_Z (Z.of_nat n) < 1)
      by (apply Qlt_shift_div_r; [exact Hpos | Lqa.lra]).
    rewrite Hp. split; [split; Lqa.lra|].
    split; [intros Hn0; lia|].
    intros Hn20.
    assert (Hn' : inject_Z (Z.of_nat n) <= 19).
    { change 19 with (inject_Z 19). rewrite <- Zle_Qle. lia. }
    assert (Hq : inject_Z (Z.of_nat k) / inject_Z (Z.of_nat n) < 19 # 20)
      by (apply Qlt_shift_div_r; [exact Hpos | Lqa.lra]).
    assert (H95 : inject_Z (Z.of_nat k) / inject_Z (Z.of_nat n) * 100 < 95) by Lqa.lra.
    split; [exact H95|].
    unfold volatility_band.
    replace (Qleb 95 (inject_Z (Z.of_nat k) / inject_Z (Z.of_nat n) * 100)) with false
      by (symmetry; apply Qleb_gt; exact H95).
    destruct (Qleb 80 _); [discriminate|]. destruct (Qleb 60 _); discriminate.
Qed.

End VolatilityPercentile.

Lemma volatility_percentile_bounds_witness :
  (volatility.get_volatility_percentile
     {| config.ATR_WINDOW := 14; config.VOL_LOOKBACK := 252 |}
     [None; Some 12%R; Some 15%R; Some 11%R] None < 95)%Q.
Proof.
  refine (proj1 (proj2 (proj2 (volatility_percentile_bounds
                                 {| config.ATR_WINDOW := 14; config.VOL_LOOKBACK := 252 |}
                                 [None; Some 12%R; Some 15%R; Some 11%R] None)) _)).
  cbn. lia.
Defined.

Section VolatilityAlert.
Import numeric config volatility.
Local Open Scope Q_scope.

Variable ALERT_THRESHOLDS : VolatilityThresholds.

(** X15.  [check_volatility_alert] returns the most severe alert that
    fires: critical when the percentile reaches the extreme threshold,
    whatever the moves; otherwise danger when the daily or the weekly move
    reaches its threshold, the daily alert winning when both fire;
    otherwise warning when the percentile reaches the high threshold; and
    safe when nothing fires. *)
Theorem check_volatility_alert_most_severe (daily_change weekly_change hv_percentile : Q) :
  let result :=
    check_volatility_alert ALERT_THRESHOLDS daily_change weekly_change hv_percentile in
  let extreme := VOL_PERCENTILE_EXTREME ALERT_THRESHOLDS <= hv_percentile in
  let high := VOL_PERCENTILE_HIGH ALERT_THRESHOLDS <= hv_percentile in
  let daily := JPY_DAILY_MOVE ALERT_THRESHOLDS <= Qabs daily_change in
  let weekly := JPY_WEEKLY_MOVE ALERT_THRESHOLDS <= Qabs weekly_change in
  (extreme -> result = ("critical", "#9C27B0")%string)
  /\ (~ extreme -> daily -> result = ("danger", "#FF5722")%string)
  /\ (~ extreme -> ~ daily -> weekly -> result = ("danger", "#FF1744")%string)
  /\ (~ extreme -> ~ daily -> ~ weekly -> high -> result = ("warning", "#FFD600")%string)
  /\ (~ extreme -> ~ daily -> ~ weekly -> ~ high -> result = ("safe", "#00C853")%string).
Proof.
  intros result extreme high daily weekly. subst result extreme high daily weekly.
  unfold check_volatility_alert.
  destruct (Qleb (JPY_DAILY_MOVE ALERT_THRESHOLDS) (Qabs daily_change)) eqn:Ed;
    [apply Qleb_le in Ed | apply Qleb_gt in Ed];
    (destruct (Qleb (JPY_WEEKLY_MOVE ALERT_THRESHOLDS) (Qabs weekly_change)) eqn:Ew;
     [apply Qleb_le in Ew | apply Qleb_gt in Ew]);
    (destruct (Qleb (VOL_PERCENTILE_EXTREME ALERT_THRESHOLDS) hv_percentile) eqn:Ee;
     [apply Qleb_le in Ee | apply Qleb_gt in Ee]);
    (destruct (Qleb (VOL_PERCENTILE_HIGH ALERT_THRESHOLDS) hv_percentile) eqn:Eh;
     [apply Qleb_le in Eh | apply Qleb_gt in Eh]);
    cbn; repeat split; intros; try reflexivity; try contradiction;
    exfalso; Lqa.lra.
Qed.

End VolatilityAlert.

Lemma check_volatility_alert_most_severe_witness :
  volatility.check_volatility_alert
    {| config.JPY_DAILY_MOVE := 2; config.JPY_WEEKLY_MOVE := 5;
       config.VOL_PERCENTILE_EXTREME := 95; config.VOL_PERCENTILE_HIGH := 80 |}
    (- (5 # 2)) 6 85
  = ("danger", "#FF5722")%string.
Proof.
  refine (proj1 (proj2 (check_volatility_alert_most_severe
                          {| config.JPY_DAILY_MOVE := 2; config.JPY_WEEKLY_MOVE := 5;
                             config.VOL_PERCENTILE_EXTREME := 95;
                             config.VOL_PERCENTILE_HIGH := 80 |}
                          (- (5 # 2)) 6 85)) _ _).
  - cbn. intros H. vm_compute in H. apply H. reflexivity.
  - cbn. discriminate.
Defined.

Section AverageTrueRange.
Import numeric config volatility.
Local Open Scope Q_scope.

Variable WINDOW_PARAMS : WindowParams.

Lemma Qmax2_ge_l (x y : Q) : x <= Qmax2 x y.
Proof.
  unfold Qmax2. destruct (Qleb x y) eqn:E; [apply Qleb_le in E; exact E | Lqa.lra].
Qed.

Lemma Qmax2_ge_r (x y : Q) : y <= Qmax2 x y.
Proof.
  unfold Qmax2. destruct (Qleb x y) eqn:E; [Lqa.lra | apply Qleb_gt in E; Lqa.lra].
Qed.

(** From the second bar on the true range is an absolute value or more. *)
Lemma true_range_nonneg (bar : Bar) (c : Q) : 0 <= true_range bar (Some c).
Proof.
  unfold true_range.
  pose proof (Qabs_nonneg (Low bar - c)) as H.
  pose proof (Qmax2_ge_r (Qmax2 (High bar - Low bar) (Qabs (High bar - c)))
                         (Qabs (Low bar - c))).
  Lqa.lra.
Qed.

Lemma true_range_first (bar : Bar) : true_range bar None = High bar - Low bar.
Proof. reflexivity. Qed.

Lemma true_ranges_tail_nonneg (bars : list Bar) (closes : list Q) :
  Forall (fun v => 0 <= v)
         (map (fun '(b, prev) => true_range b prev) (combine bars (map Some closes))).
Proof.
  revert closes. induction bars as [|bar bars IH]; intros [|c closes]; cbn;
    constructor; [apply true_range_nonneg | apply IH].
Qed.

(** The true ranges of a frame: the first bar's range, then non-negative
    entries. *)
Lemma true_ranges_cons (bar : Bar) (bars : list Bar) :
  exists rest,
    map (fun '(b, prev) => true_range b prev)
        (combine (bar :: bars) (shift 1 (map Close (bar :: bars))))
    = (High bar - Low bar) :: rest
    /\ length rest = length bars
    /\ Forall (fun v => 0 <= v) rest.
Proof.
  exists (map (fun '(b, prev) => true_range b prev)
              (combine bars (map Some (map Close (bar :: bars))))).
  split; [|split].
  - unfold shift. cbn [map length repeat app firstn combine].
    rewrite (List.length_map Close bars). f_equal. f_equal.
    symmetry. apply (List.combine_firstn_l bars (Some (Close bar) :: map Some (map Close bars))).
  - rewrite length_map, length_combine, !length_map. cbn [length]. lia.
  - apply true_ranges_tail_nonneg.
Qed.

Lemma Qsum_nonneg (l : list Q) : Forall (fun v => 0 <= v) l -> 0 <= Qsum l.
Proof.
  induction 1 as [|x l Hx Hl IH]; [discriminate|].
  change (Qsum (x :: l)) with (x + Qsum l). Lqa.lra.
Qed.

Lemma rolling_mean_nth (w : nat) (s : list Q) (i : nat) :
  (i < length s)%nat ->
  nth_error (rolling_mean w s) i
  = Some (if (w <=? i + 1)%nat then
            fdiv (Some (Qsum (firstn w (skipn (i + 1 - w) s))))
                 (Some (inject_Z (Z.of_nat w)))
          else None).
Proof.
  intros Hi. unfold rolling_mean.
  rewrite nth_error_map, nth_error_seq_lt by exact Hi. reflexivity.
Qed.

(** X16.  [calculate_atr] with a window of at least 1 has one entry per
    bar, undefined at the first [w-1] positions and a number from position
    [w-1] on; from position [w] on that number is non-negative whatever the
    bars, and at position [w-1] too when no bar has its high below its
    low. *)
Theorem atr_defined (prices : list Bar) (window : option nat) :
  let w :=
    match window with
    | None => ATR_WINDOW WINDOW_PARAMS
    | Some w => w
    end in
  let atr := calculate_atr WINDOW_PARAMS prices window in
  (1 <= w)%nat ->
  length atr = length prices
  /\ (forall i, (i + 1 < w)%nat -> (i < length prices)%nat -> nth_error atr i = Some None)
  /\ (forall i, (w <= i + 1)%nat -> (i < length prices)%nat ->
        exists v, nth_error atr i = Some (Some v)
                  /\ ((w <= i)%nat -> 0 <= v)
                  /\ (Forall (fun bar => Low bar <= High bar) prices -> 0 <= v)).
Proof.
  intros w atr Hw. subst atr. unfold calculate_atr. fold w.
  destruct prices as [|bar bars]; [cbn; repeat split; intros; lia|].
  destruct (true_ranges_cons bar bars) as (rest & -> & Hlen & Hnonneg).
  assert (Hl : length ((High bar - Low bar) :: rest) = length (bar :: bars))
    by (cbn; now rewrite Hlen).
  split; [unfold rolling_mean; now rewrite length_map, length_seq|].
  split.
  - intros i Hi Hlt. rewrite rolling_mean_nth by (rewrite Hl; exact Hlt).
    now replace (w <=? i + 1)%nat with false by (symmetry; apply Nat.leb_gt; lia).
  - intros i Hi Hlt. rewrite rolling_mean_nth by (rewrite Hl; exact Hlt).
    replace (w <=? i + 1)%nat with true by (symmetry; apply Nat.leb_le; lia).
    assert (Hwpos : 0 < inject_Z (Z.of_nat w)) by (apply inject_nat_pos; lia).
    unfold fdiv.
    destruct (Qeq_bool (inject_Z (Z.of_nat w)) 0) eqn:E0.
    { apply Qeq_bool_iff in E0. rewrite E0 in Hwpos. Lqa.lra. }
    eexists. split; [reflexivity|].
    assert (Hdiv : forall l, Forall (fun v => 0 <= v) l ->
                             0 <= Qsum l / inject_Z (Z.of_nat w)).
    { intros l Hl0. apply Qle_shift_div_l; [exact Hwpos|].
      rewrite Qmult_0_l. now apply Qsum_nonneg. }
    split.
    + intros Hwi. apply Hdiv. apply Forall_firstn.
      replace (i + 1 - w)%nat with (S (i - w)) by lia.
      cbn [skipn]. apply Forall_skipn. exact Hnonneg.
    + intros Hbars. apply Hdiv. apply Forall_firstn, Forall_skipn.
      constructor; [|exact Hnonneg].
      inversion Hbars; subst. Lqa.lra.
Qed.

End AverageTrueRange.

Lemma atr_defined_witness :
  let params := {| config.ATR_WINDOW := 14; config.VOL_LOOKBACK := 252 |} in
  let prices :=
    [ {| volatility.High := 102; volatility.Low := 99; volatility.Close := 100 |};
      {| volatility.High := 101; volatility.Low := 97; volatility.Close := 98 |};
      {| volatility.High := 103; volatility.Low := 98; volatility.Close := 102 |} ]%Q in
  let atr := volatility.calculate_atr params prices (Some 2%nat) in
  nth_error atr 0 = Some None
  /\ exists v, nth_error atr 1 = Some (Some v) /\ (0 <= v)%Q.
Proof.
  intros params prices atr.
  destruct (atr_defined params prices (Some 2%nat)) as (_ & Hhead & Hrest).
  - cbn. lia.
  - split; [apply Hhead; cbn; lia|].
    destruct (Hrest 1%nat) as (v & Hv & _ & Hnonneg); [cbn; lia | cbn; lia|].
    exists v. split; [exact Hv|]. apply Hnonneg.
    repeat constructor; discriminate.
Defined.

Section FlatPrices.
Import numeric config volatility.
Local Open Scope R_scope.

Variable CALC_PARAMS : CalcParams.

Let quiet (v : option R) : Prop := v = None \/ v = Some 0.

Lemma log_return_flat (p : R) : 0 < p -> log_return p (Some p) = Some 0.
Proof.
  intros Hp. unfold log_return.
  destruct (Req_EM_T p 0) as [E|_]; [Lra.lra|].
  assert (E : p / p = 1) by (field; Lra.lra). rewrite E.
  destruct (Rlt_dec 0 1) as [_|H]; [now rewrite ln_1 | Lra.lra].
Qed.

Lemma log_returns_flat (p : R) (n : nat) :
  0 < p -> Forall quiet (log_returns (repeat p n)).
Proof.
  intros Hp. destruct n as [|n]; [constructor|].
  cbn [repeat]. rewrite log_returns_cons. constructor; [now left|].
  apply List.Forall_forall. intros v Hv.
  apply in_map_iff in Hv. destruct Hv as ([x prev] & <- & Hin).
  pose proof (in_combine_l _ _ _ _ Hin) as Hx.
  pose proof (in_combine_r _ _ _ _ Hin) as Hprev.
  apply repeat_spec in Hx. subst x.
  apply in_map_iff in Hprev. destruct Hprev as (q & <- & Hq).
  assert (q = p) as ->.
  { destruct Hq as [<-|Hq]; [reflexivity | now apply repeat_spec in Hq]. }
  right. now apply log_return_flat.
Qed.

Lemma Rsum_zero (xs : list R) : Forall (fun x => x = 0) xs -> Rsum xs = 0.
Proof.
  induction 1 as [|x xs Hx Hxs IH]; [reflexivity|].
  change (Rsum (x :: xs)) with (x + Rsum xs). rewrite Hx, IH. Lra.lra.
Qed.

Lemma all_defined_quiet (s : list (option R)) :
  Forall quiet s -> forall xs, all_defined s = Some xs -> Forall (fun x => x = 0) xs.
Proof.
  induction 1 as [|v s Hv Hs IH]; intros xs E; cbn in E.
  - injection E as <-. constructor.
  - destruct v as [x|]; [|discriminate].
    destruct (all_defined s) as [ys|]; [|discriminate].
    injection E as <-. constructor; [|now apply IH].
    destruct Hv as [Hv|Hv]; [discriminate | now injection Hv].
Qed.

Lemma sample_std_zero (xs : list R) (sd : R) :
  Forall (fun x => x = 0) xs -> sample_std xs = Some sd -> sd = 0.
Proof.
  intros Hz. unfold sample_std. destruct (length xs <? 2)%nat; [discriminate|].
  intros E. injection E as <-.
  rewrite (Rsum_zero xs Hz).
  rewrite Rsum_zero.
  - unfold Rdiv. rewrite Rmult_0_l. apply sqrt_0.
  - apply List.Forall_forall. intros y Hy. apply in_map_iff in Hy.
    destruct Hy as (x & <- & Hx). rewrite List.Forall_forall in Hz.
    rewrite (Hz x Hx). unfold Rdiv. ring.
Qed.

Lemma rolling_std_quiet (w : nat) (s : list (option R)) :
  Forall quiet s -> Forall quiet (rolling_std w s).
Proof.
  intros Hs. unfold rolling_std. apply List.Forall_forall. intros v Hv.
  apply in_map_iff in Hv. destruct Hv as (i & <- & _).
  destruct (w <=? i + 1)%nat; [|now left].
  destruct (all_defined _) as [xs|] eqn:E; [|now left].
  destruct (sample_std xs) as [sd|] eqn:Esd; [|now left].
  right. f_equal. eapply sample_std_zero; [|exact Esd].
  eapply all_defined_quiet; [|exact E].
  apply Forall_firstn, Forall_skipn. exact Hs.
Qed.

Lemma hv_quiet (p : R) (n : nat) (window : option nat) :
  0 < p ->
  Forall quiet (calculate_historical_volatility CALC_PARAMS (repeat p n) window).
Proof.
  intros Hp. unfold calculate_historical_volatility.
  destruct (repeat p n) as [|x l] eqn:E; [constructor|]. rewrite <- E.
  apply List.Forall_forall. intros v Hv.
  apply in_map_iff in Hv. destruct Hv as (u & <- & Hu).
  pose proof (rolling_std_quiet
                match window with Some w => w | None => VOL_WINDOW CALC_PARAMS end
                _ (log_returns_flat p n Hp)) as Hq.
  rewrite List.Forall_forall in Hq. destruct (Hq u Hu) as [->| ->]; [now left|].
  right. f_equal. ring.
Qed.

Lemma mean_quiet (s : list (option R)) :
  Forall quiet s -> mean s = None \/ mean s = Some 0.
Proof.
  intros Hs. unfold mean.
  assert (Hz : Forall (fun x => x = 0) (dropna s)).
  { induction Hs as [|v s Hv Hs IH]; [constructor|].
    destruct Hv as [->| ->]; cbn; [exact IH | constructor; [reflexivity | exact IH]]. }
  destruct (dropna s) as [|x xs]; [now left|].
  right. rewrite (Rsum_zero _ Hz). f_equal. unfold Rdiv. ring.
Qed.

(** X17.  A flat market never spikes: on a series of equal positive prices
    every defined volatility is 0 and [is_volatility_spiking] answers
    false, whatever the length and the window. *)
Theorem flat_prices_never_spike (p : R) (n : nat) :
  0 < p ->
  (forall i v,
      nth_error (calculate_historical_volatility CALC_PARAMS (repeat p n) None) i
      = Some (Some v) -> v = 0)
  /\ is_volatility_spiking CALC_PARAMS (repeat p n) = false.
Proof.
  intros Hp. pose proof (hv_quiet p n None Hp) as Hq. split.
  - intros i v Hv. apply nth_error_In in Hv.
    rewrite List.Forall_forall in Hq. destruct (Hq _ Hv) as [H|H]; [discriminate|].
    now injection H.
  - unfold is_volatility_spiking.
    set (hv := calculate_historical_volatility CALC_PARAMS (repeat p n) None) in *.
    destruct (length hv <? 20)%nat; [reflexivity|].
    assert (H5 : Forall quiet (tail 5 hv)) by (apply Forall_skipn; exact Hq).
    assert (H20 : Forall quiet (tail 20 hv)) by (apply Forall_skipn; exact Hq).
    destruct (mean_quiet _ H5) as [E5|E5]; rewrite E5; [reflexivity|].
    destruct (mean_quiet _ H20) as [E20|E20]; rewrite E20; [reflexivity|].
    unfold Rltb. destruct (Rlt_dec _ _) as [H|_]; [Lra.lra | reflexivity].
Qed.

End FlatPrices.

Lemma flat_prices_never_spike_witness :
  volatility.is_volatility_spiking
    {| config.VOL_WINDOW := 20; config.RELATIVE_STRENGTH_WINDOW := 20 |}
    (repeat 150%R 40)
  = false.
Proof.
  refine (proj2 (flat_prices_never_spike _ 150%R 40 _)). Lra.lra.
Defined.

Section ShiftedSeries.
Import numeric config divergence.
Local Open Scope Q_scope.

Lemma nth_error_shift {A : Type} (k : nat) (s : list A) (i : nat) :
  (i < length s)%nat ->
  nth_error (shift k s) i = Some (if (i <? k)%nat then None else nth_error s (i - k)).
Proof.
  intros Hi. unfold shift. rewrite nth_error_firstn.
  replace (i <? length s)%nat with true by (symmetry; apply Nat.ltb_lt; exact Hi).
  rewrite nth_error_app, repeat_length.
  destruct (i <? k)%nat eqn:E.
  - apply Nat.ltb_lt in E. now apply nth_error_repeat.
  - apply Nat.ltb_ge in E. rewrite nth_error_map.
    destruct (nth_error s (i - k)) eqn:En; [reflexivity|].
    apply nth_error_None in En. lia.
Qed.

Lemma nth_error_combine_both {A B : Type} (l1 : list A) (l2 : list B) (i : nat) :
  nth_error (combine l1 l2) i
  = match nth_error l1 i, nth_error l2 i with
    | Some a, Some b => Some (a, b)
    | _, _ => None
    end.
Proof.
  revert l2 i. induction l1 as [|a l1 IH]; intros [|b l2] [|i]; cbn; try reflexivity.
  - now destruct (nth_error l1 i).
  - apply IH.
Qed.

(** The entries of [pct_change]: NaN on the first [periods] places, then
    the change against the entry [periods] places earlier. *)
Lemma pct_change_nth (periods : nat) (s : list Q) (i : nat) (x : Q) :
  nth_error s i = Some x ->
  nth_error (pct_change periods s) i
  = Some (fsub (fdiv (Some x)
                     (if (i <? periods)%nat then None else nth_error s (i - periods)))
               (Some 1)).
Proof.
  intros Hx. unfold pct_change.
  assert (Hi : (i < length s)%nat) by (apply nth_error_Some; congruence).
  rewrite nth_error_map, nth_error_combine_both, Hx. unfold float.
  rewrite nth_error_shift by exact Hi. reflexivity.
Qed.

Lemma pct_change_length (periods : nat) (s : list Q) :
  length (pct_change periods s) = length s.
Proof.
  unfold pct_change. rewrite length_map, length_combine, shift_length. lia.
Qed.

(** X18.  The return that [detect_divergence] reports for the benchmark is
    the percentage change over [window - 1] bars, not [window]: for a
    window of at least 1 and a benchmark of more than [window] rows,
    ['benchmark_performance'] is the last entry of
    [pct_change(window - 1)] times 100, the reference close being
    [iloc[-window]]. *)
Theorem benchmark_performance_bars (ALERT_THRESHOLDS : AlertThresholds)
    (CALC_PARAMS : CalcParams) (assets : list (string * Frame)) (benchmark : Frame)
    (w : nat) :
  (1 <= w)%nat -> (w < length benchmark)%nat ->
  exists change,
    iloc_last (pct_change (w - 1) (Close benchmark)) = Some change
    /\ benchmark_performance
         (detect_divergence ALERT_THRESHOLDS CALC_PARAMS assets benchmark (Some w))
       = fmul change (Some 100).
Proof.
  intros Hw Hlen.
  assert (Hb : benchmark <> []) by (intros ->; cbn in Hlen; lia).
  assert (Hperf : benchmark_performance
                    (detect_divergence ALERT_THRESHOLDS CALC_PARAMS assets benchmark (Some w))
                  = window_return (Close benchmark) w).
  { rewrite (detect_divergence_nonempty _ _ _ _ _ Hb). cbv zeta.
    destruct (fold_left _ assets _) as [[scores details] performance].
    destruct scores; reflexivity. }
  rewrite Hperf. unfold window_return, Close.
  set (close := map snd benchmark).
  assert (Hc : length close = length benchmark) by apply length_map.
  replace (w <? length close)%nat with true by (symmetry; apply Nat.ltb_lt; lia).
  destruct (iloc_last close) as [last|] eqn:Elast.
  2:{ apply iloc_last_nil in Elast. rewrite Elast in Hc. cbn in Hc. lia. }
  unfold iloc_last. rewrite pct_change_length.
  unfold iloc_last in Elast.
  rewrite (pct_change_nth (w - 1) close _ last Elast).
  replace (length close - 1 <? w - 1)%nat with false
    by (symmetry; apply Nat.ltb_ge; lia).
  replace (length close - 1 - (w - 1))%nat with (length close - w)%nat by lia.
  unfold iloc_neg. destruct w as [|w']; [lia|].
  replace (S w' <=? length close)%nat with true by (symmetry; apply Nat.leb_le; lia).
  eexists. split; [reflexivity|].
  destruct (nth_error close (length close - S w')) as [base|] eqn:Ebase; [reflexivity|].
  apply nth_error_None in Ebase. lia.
Qed.

Lemma benchmark_performance_bars_witness :
  let th := {| SPREAD_CRITICAL := 3 # 2; SPREAD_DANGER := 2; SPREAD_WARNING := 5 # 2;
               DIVERGENCE_THRESHOLD := - (5 # 100) |} in
  let params := {| VOL_WINDOW := 20; RELATIVE_STRENGTH_WINDOW := 20 |} in
  benchmark_performance
    (detect_divergence th params [] [(1%Z, 100); (2%Z, 50); (3%Z, 80)] (Some 1%nat))
  = Some ((80 / 80 - 1) * 100).
Proof.
  intros th params.
  destruct (benchmark_performance_bars th params []
              [(1%Z, 100); (2%Z, 50); (3%Z, 80)] 1) as (change & Hc & Hp).
  - lia.
  - cbn. lia.
  - rewrite Hp. vm_compute in Hc. injection Hc as <-. reflexivity.
Defined.

End ShiftedSeries.

Section RelativeStrengthDefined.
Import numeric config divergence.
Local Open Scope Q_scope.

Variable CALC_PARAMS : CalcParams.

(** X19.  On well-formed frames the relative strength has one entry per
    common date; it is undefined on the first [window] of them, and from
    then on it is the difference between the asset's and the benchmark's
    change over [window] aligned bars, times 100. *)
Theorem relative_strength_defined (asset benchmark : Frame) (w : nat) :
  well_formed asset -> well_formed benchmark -> asset <> [] -> benchmark <> [] ->
  let common_idx := intersection (index asset) (index benchmark) in
  let asset_close := loc asset common_idx in
  let bench_close := loc benchmark common_idx in
  let rs := calculate_relative_strength CALC_PARAMS asset benchmark (Some w) in
  length rs = length common_idx
  /\ (forall i, (i < w)%nat -> (i < length common_idx)%nat -> nth_error rs i = Some None)
  /\ (forall i, (w <= i)%nat -> (i < length common_idx)%nat ->
        exists a a0 b b0,
          nth_error asset_close i = Some a /\ nth_error asset_close (i - w) = Some a0
          /\ nth_error bench_close i = Some b /\ nth_error bench_close (i - w) = Some b0
          /\ nth_error rs i = Some (Some ((a / a0 - 1 - (b / b0 - 1)) * 100))).
Proof.
  intros Ha Hb Hane Hbne common_idx asset_close bench_close rs.
  destruct (loc_well_formed asset common_idx Ha) as [Hla Hza].
  { intros d Hd. now apply intersection_In in Hd. }
  destruct (loc_well_formed benchmark common_idx Hb) as [Hlb Hzb].
  { intros d Hd. now apply intersection_In in Hd. }
  fold asset_close in Hla, Hza. fold bench_close in Hlb, Hzb.
  assert (Hrs : rs = map (fun '(x, y) => fmul (fsub x y) (Some 100))
                         (combine (pct_change w asset_close) (pct_change w bench_close))).
  { subst rs. unfold calculate_relative_strength.
    destruct asset; [congruence|]. destruct benchmark; [congruence|]. reflexivity. }
  assert (Hnth : forall i a b,
            nth_error asset_close i = Some a -> nth_error bench_close i = Some b ->
            nth_error rs i
            = Some (fmul (fsub
                 (fsub (fdiv (Some a) (if (i <? w)%nat then None
                                       else nth_error asset_close (i - w))) (Some 1))
                 (fsub (fdiv (Some b) (if (i <? w)%nat then None
                                       else nth_error bench_close (i - w))) (Some 1)))
                 (Some 100))).
  { intros i a b Hai Hbi. rewrite Hrs, nth_error_map, nth_error_combine_both.
    rewrite (pct_change_nth w asset_close i a Hai).
    rewrite (pct_change_nth w bench_close i b Hbi). reflexivity. }
  assert (Hget : forall (l : list Q) i, (i < length l)%nat -> exists x, nth_error l i = Some x).
  { intros l i Hi. destruct (nth_error l i) eqn:E; [eauto|].
    apply nth_error_None in E. lia. }
  split; [|split].
  - rewrite Hrs, length_map, length_combine, !pct_change_length. lia.
  - intros i Hi Hlen.
    destruct (Hget asset_close i) as [a Hai]; [lia|].
    destruct (Hget bench_close i) as [b Hbi]; [lia|].
    rewrite (Hnth i a b Hai Hbi).
    now replace (i <? w)%nat with true by (symmetry; apply Nat.ltb_lt; exact Hi).
  - intros i Hi Hlen.
    destruct (Hget asset_close i) as [a Hai]; [lia|].
    destruct (Hget bench_close i) as [b Hbi]; [lia|].
    destruct (Hget asset_close (i - w)%nat) as [a0 Ha0]; [lia|].
    destruct (Hget bench_close (i - w)%nat) as [b0 Hb0]; [lia|].
    exists a, a0, b, b0. repeat (split; [assumption|]).
    rewrite (Hnth i a b Hai Hbi).
    replace (i <? w)%nat with false by (symmetry; apply Nat.ltb_ge; exact Hi).
    rewrite Ha0, Hb0. unfold fdiv.
    rewrite List.Forall_forall in Hza, Hzb.
    pose proof (Hza a0 (nth_error_In _ _ Ha0)) as Hna.
    pose proof (Hzb b0 (nth_error_In _ _ Hb0)) as Hnb.
    destruct (Qeq_bool a0 0) eqn:Ea; [apply Qeq_bool_iff in Ea; contradiction|].
    destruct (Qeq_bool b0 0) eqn:Eb; [apply Qeq_bool_iff in Eb; contradiction|].
    reflexivity.
Qed.

End RelativeStrengthDefined.

Lemma relative_strength_defined_witness :
  let params := {| config.VOL_WINDOW := 20; config.RELATIVE_STRENGTH_WINDOW := 20 |} in
  let asset := [(1%Z, 100%Q); (2%Z, 110%Q); (4%Z, 99%Q)] in
  let benchmark := [(1%Z, 10%Q); (2%Z, 10%Q); (3%Z, 11%Q); (4%Z, 12%Q)] in
  length (divergence.calculate_relative_strength params asset benchmark (Some 1%nat))
  = 3%nat.
Proof.
  intros params asset benchmark.
  refine (proj1 (relative_strength_defined params asset benchmark 1 _ _ _ _)).
  - split; [repeat constructor; cbn; intuition discriminate
           | repeat constructor; discriminate].
  - split; [repeat constructor; cbn; intuition discriminate
           | repeat constructor; discriminate].
  - discriminate.
  - discriminate.
Defined.

Section VelocityAndChange.
Import numeric spread.
Local Open Scope Q_scope.

Lemma statistics_lookup (column : list float) (last : Q) (key : string) :
  iloc_last (dropna column) = Some last ->
  get_spread_statistics (Some column) !! key
  = (<["current" := last]>
     (<["mean" := Qsum (dropna column) / inject_Z (Z.of_nat (length (dropna column)))]>
     (<["min" := Qminimum last (dropna column)]>
     (<["max" := Qmaximum last (dropna column)]>
     (<["percentile" :=
          inject_Z (Z.of_nat (count_less (dropna column) last))
          / inject_Z (Z.of_nat (length (dropna column))) * 100]>
     (<["change_1d" := change (dropna column) last 2 1]>
     (<["change_5d" := change (dropna column) last 5 5]>
     (<["change_20d" := change (dropna column) last 20 20]> ∅)))))))
     : gmap string Q) !! key.
Proof.
  intros Hlast. unfold get_spread_statistics.
  destruct column as [|c column]; [discriminate|].
  now rewrite Hlast.
Qed.

(** Over [k] observations back, with more than [k] observations: the
    change entry and the velocity read the same two observations. *)
Lemma velocity_change (column : list float) (k : nat) (last : Q) :
  (1 <= k)%nat -> (k < length (dropna column))%nat ->
  iloc_last (dropna column) = Some last ->
  calculate_spread_velocity (Some column) k
  = Some (change (dropna column) last k k / inject_Z (Z.of_nat k)).
Proof.
  intros Hk Hlen Hlast. unfold calculate_spread_velocity, change.
  destruct column as [|c column]; [discriminate|].
  replace (length (dropna (c :: column)) <? k)%nat with false
    by (symmetry; apply Nat.ltb_ge; lia).
  replace (k <? length (dropna (c :: column)))%nat with true
    by (symmetry; apply Nat.ltb_lt; lia).
  rewrite iloc_last_tail, Hlast by exact Hk.
  unfold tail. rewrite nth_error_skipn, Nat.add_0_r.
  unfold iloc_neg. destruct k as [|k']; [lia|].
  replace (S k' <=? length (dropna (c :: column)))%nat with true
    by (symmetry; apply Nat.leb_le; lia).
  destruct (nth_error _ _) as [first|] eqn:E; [reflexivity|].
  apply nth_error_None in E. lia.
Qed.

(** X20.  With more than 5 observations the 5-day velocity is the
    ['change_5d'] entry of the statistics divided by 5, and with more than
    20 the 20-day velocity is ['change_20d'] divided by 20; with exactly 5
    (or 20) observations the change entry is 0 while the velocity still
    compares the first and the last of them. *)
Theorem velocity_is_change_per_day (column : list float) :
  let n := length (dropna column) in
  ((5 < n)%nat ->
   exists change_5d,
     get_spread_statistics (Some column) !! "change_5d" = Some change_5d
     /\ calculate_spread_velocity (Some column) 5 = Some (change_5d / 5))
  /\ ((20 < n)%nat ->
      exists change_20d,
        get_spread_statistics (Some column) !! "change_20d" = Some change_20d
        /\ calculate_spread_velocity (Some column) 20 = Some (change_20d / 20))
  /\ ((1 <= n <= 5)%nat ->
      get_spread_statistics (Some column) !! "change_5d" = Some 0)
  /\ ((1 <= n <= 20)%nat ->
      get_spread_statistics (Some column) !! "change_20d" = Some 0).
Proof.
  intros n. subst n.
  assert (Hlast : (1 <= length (dropna column))%nat ->
                  exists last, iloc_last (dropna column) = Some last).
  { intros H. apply iloc_last_nonempty. intros E. rewrite E in H. cbn in H. lia. }
  split; [|split; [|split]].
  - intros H. destruct Hlast as [last Hl]; [lia|].
    exists (change (dropna column) last 5 5). split.
    + rewrite (statistics_lookup column last _ Hl).
      do 6 (rewrite lookup_insert_ne by discriminate). now rewrite lookup_insert_eq.
    + now apply velocity_change; [lia | lia |].
  - intros H. destruct Hlast as [last Hl]; [lia|].
    exists (change (dropna column) last 20 20). split.
    + rewrite (statistics_lookup column last _ Hl).
      do 7 (rewrite lookup_insert_ne by discriminate). now rewrite lookup_insert_eq.
    + now apply velocity_change; [lia | lia |].
  - intros [H1 H5]. destruct Hlast as [last Hl]; [lia|].
    rewrite (statistics_lookup column last _ Hl).
    do 6 (rewrite lookup_insert_ne by discriminate). rewrite lookup_insert_eq.
    unfold change.
    now replace (5 <? length (dropna column))%nat with false
      by (symmetry; apply Nat.ltb_ge; lia).
  - intros [H1 H20]. destruct Hlast as [last Hl]; [lia|].
    rewrite (statistics_lookup column last _ Hl).
    do 7 (rewrite lookup_insert_ne by discriminate). rewrite lookup_insert_eq.
    unfold change.
    now replace (20 <? length (dropna column))%nat with false
      by (symmetry; apply Nat.ltb_ge; lia).
Qed.

Lemma velocity_is_change_per_day_witness :
  exists change_5d,
    get_spread_statistics (Some (map Some [3; 3; 3; 3; 3; 3; 2])) !! "change_5d"
    = Some change_5d
    /\ calculate_spread_velocity (Some (map Some [3; 3; 3; 3; 3; 3; 2])) 5
       = Some (change_5d / 5).
Proof.
  refine (proj1 (velocity_is_change_per_day (map Some [3; 3; 3; 3; 3; 3; 2])) _).
  cbn. lia.
Defined.

End VelocityAndChange.
